(** * serverless-appsync-offline: the subscription server of [lib/serverCore.js]

    A shallow embedding of [shouldPublishSubscription] and of the
    [SubscriptionServer] class (register and the four broker handlers),
    together with the part of the JavaScript runtime they rely on: the
    timer queue, the async iterators handed out by graphql's [subscribe],
    and the pending [while (true)] loops of [onClientSubscribed].

    Modelling conventions.
    - A JavaScript value is a tree; objects and arrays carry the address
      that [===] compares.  An object is the list of its own enumerable
      properties in [Object.entries] order; inherited (prototype)
      properties are modelled only where the key comes from outside
      ([functions[fn]] of lambdaSource).  Numbers are integers plus NaN.
    - A call that can raise a TypeError returns [result].
    - [await subscribe(...)] settles before the next broker event is
      handled, so register and each handler run atomically up to the
      first [await asyncIterator.next()].  What the engine answers is
      fixed by [this.schema] and the request, and it answers with a
      stream or with errors (a [subscribe] that rejects is not modelled);
      [uuid()] is an input.
    - An async iterator hands each event to one [next()]; after
      [return()] every [next()] reports completion and the iterator takes
      no further event.  Events are taken to be produced on a stream that
      a loop is pulling.
    - The callback of a timer runs as the clock reaches its time, unless
      the timer has been cleared.
    - consola output of the handlers is kept as a list of lines; the
      lines printed inside the filter are not modelled. *)

From stdpp Require Import gmap strings list fin_maps pretty.
From Stdlib Require Import ZArith.

Open Scope Z_scope.
Set Warnings "-register-all".

(* ===================================================================== *)
(** ** JavaScript values *)
(* ===================================================================== *)

Module JS.

Inductive value : Type :=
| JUndefined
| JNull
| JBool (b : bool)
| JNumber (n : Z)
| JNaN
| JString (s : string)
| JArray (addr : nat) (items : list value)
| JObject (addr : nat) (fields : list (string * value)).

Inductive error : Type :=
| TypeError.

Inductive result (A : Type) : Type :=
| Ok (a : A)
| Throw (e : error).
Arguments Ok {A} a.
Arguments Throw {A} e.

Definition bind {A B} (m : result A) (k : A -> result B) : result B :=
  match m with
  | Ok a => k a
  | Throw e => Throw e
  end.

Notation "'let*' x ':=' m 'in' k" := (bind m (fun x => k))
  (at level 10, x name, m at level 100, k at level 200).

(** [x == null] *)
Definition is_nullish (v : value) : bool :=
  match v with
  | JUndefined | JNull => true
  | _ => false
  end.

Inductive type_tag : Type :=
| TUndefined | TObject | TBoolean | TNumber | TString.

Definition typeof (v : value) : type_tag :=
  match v with
  | JUndefined => TUndefined
  | JNull => TObject
  | JBool _ => TBoolean
  | JNumber _ | JNaN => TNumber
  | JString _ => TString
  | JArray _ _ | JObject _ _ => TObject
  end.

Definition is_object_tag (t : type_tag) : bool :=
  match t with TObject => true | _ => false end.

(** ToBoolean, as used by [if (x)] and [x || y]. *)
Definition truthy (v : value) : bool :=
  match v with
  | JUndefined | JNull | JNaN => false
  | JBool b => b
  | JNumber n => negb (n =? 0)
  | JString s => negb (String.eqb s "")
  | JArray _ _ | JObject _ _ => true
  end.

Definition js_or (a b : value) : value := if truthy a then a else b.

(** [a === b]: primitives by value (NaN equals nothing), objects and
    arrays by address. *)
Definition strict_eq (a b : value) : bool :=
  match a, b with
  | JUndefined, JUndefined => true
  | JNull, JNull => true
  | JBool x, JBool y => Bool.eqb x y
  | JNumber x, JNumber y => x =? y
  | JString x, JString y => String.eqb x y
  | JArray x _, JArray y _ => Nat.eqb x y
  | JObject x _, JObject y _ => Nat.eqb x y
  | _, _ => false
  end.

(** Index keys "0", "1", ... of an array or of the characters of a string. *)
Definition indexed {A} (l : list A) : list (string * A) :=
  imap (fun i x => (pretty i, x)) l.

Fixpoint chars (s : string) : list value :=
  match s with
  | EmptyString => []
  | String c s' => JString (String c EmptyString) :: chars s'
  end.

Fixpoint assoc {A} (k : string) (l : list (string * A)) : option A :=
  match l with
  | [] => None
  | (k', x) :: l' => if String.eqb k' k then Some x else assoc k l'
  end.

(** [Object.entries(v)]: throws on null and undefined, is empty on the
    other primitives but strings. *)
Definition Object_entries (v : value) : result (list (string * value)) :=
  match v with
  | JUndefined | JNull => Throw TypeError
  | JBool _ | JNumber _ | JNaN => Ok []
  | JString s => Ok (indexed (chars s))
  | JArray _ items => Ok (indexed items)
  | JObject _ fields => Ok fields
  end.

Definition or_undefined (o : option value) : value :=
  match o with Some x => x | None => JUndefined end.

Definition with_length (n : nat) (k : string) (o : option value) : value :=
  match o with
  | Some x => x
  | None => if String.eqb k "length" then JNumber (Z.of_nat n) else JUndefined
  end.

(** [v[k]] on a value that is neither null nor undefined. *)
Definition own (v : value) (k : string) : value :=
  match v with
  | JObject _ fields => or_undefined (assoc k fields)
  | JArray _ items => with_length (length items) k (assoc k (indexed items))
  | JString s => with_length (String.length s) k (assoc k (indexed (chars s)))
  | _ => JUndefined
  end.

(** [v[k]]: a TypeError on null and undefined. *)
Definition get (v : value) (k : string) : result value :=
  if is_nullish v then Throw TypeError else Ok (own v k).

(** [l.every(f)], where [f] may throw: stops at the first false. *)
Fixpoint every {A} (f : A -> result bool) (l : list A) : result bool :=
  match l with
  | [] => Ok true
  | x :: l' => let* b := f x in if b : bool then every f l' else Ok false
  end.

(** [entries[0].pop()]: the value of the first entry; a TypeError when
    there is none ([undefined.pop]). *)
Definition first_entry_value (entries : list (string * value)) : result value :=
  match entries with
  | [] => Throw TypeError
  | (_, x) :: _ => Ok x
  end.

End JS.
Import JS.

(* ===================================================================== *)
(** ** The event filter *)
(* ===================================================================== *)

Definition TopicExpires : Z := 1000 * 60 * 100.
Definition ConnectTimeout : Z := 1000 * 60 * 2.

(** [payload.data] once [payload] is known not to be null. *)
Definition data_of (payload : value) : value := own payload "data".

Definition matches (payloadData : value) (entry : string * value) : result bool :=
  let* x := get payloadData entry.1 in Ok (strict_eq x entry.2).

Definition shouldPublishSubscription (payload variables : value) : result bool :=
  if is_nullish payload
     || (is_object_tag (typeof payload) && is_nullish (data_of payload))
  then Ok false
  else
    let* variableEntries := Object_entries variables in
    if Nat.eqb (length variableEntries) 0 then Ok true
    else
      let* dataEntries := Object_entries (data_of payload) in
      let* payloadData := first_entry_value dataEntries in
      let* variableResult := every (matches payloadData) variableEntries in
      if negb variableResult then Ok false else Ok true.

(* ===================================================================== *)
(** ** The subscription server and its runtime *)
(* ===================================================================== *)

(** The request context built by [createGQLHandler]; [sub] is
    [context.jwt.sub], the client id. *)
Record context_t : Type := Context {
  sub : string;
  request : value
}.

(** What [subscribe] of graphql resolves to: an async iterator, or an
    execution result whose [errors] is an array (hence truthy). *)
Inductive subscribe_result : Type :=
| Iterator
| ExecutionResult (addr : nat) (errors : list value) (data : value).

(** [appsyncErrors] is what [context.appsyncErrors] holds once the call
    has settled ([JUndefined] when no resolver has set it). *)
Record outcome : Type := Outcome {
  returned : subscribe_result;
  appsyncErrors : value
}.

(** [this.schema], seen through [subscribeToGraphQL]: the engine's answer
    to (document, variableValues, contextValue). *)
Definition schema_t : Type := value -> value -> context_t -> outcome.

Record registration : Type := Registration {
  context : context_t;
  documentAST : value;
  variables : value;
  topicId : string;
  asyncIterator : nat;
  isRegistered : bool
}.

(** An async iterator of the engine: the events not pulled yet, and
    whether [return()] has been called. *)
Record iterator : Type := AsyncIterator {
  queue : list value;
  done : bool
}.

Inductive timer_status : Type := Armed | Cleared | Fired.

(** A [setTimeout] whose callback is [() => asyncIterator.return()]. *)
Record timer : Type := Timer {
  deadline : Z;
  target : nat;
  status : timer_status
}.

Inductive loop_status : Type := Running | Finished | Rejected.

(** The [while (true)] loop of one [onClientSubscribed] call, with the
    constants it destructured out of the registration. *)
Record loop : Type := Loop {
  loop_clientId : string;
  loop_asyncIterator : nat;
  loop_topicId : string;
  loop_variables : value;
  loop_status_of : loop_status
}.

(** The argument of [mqttServer.publish]; [payload] is the value given to
    [JSON.stringify]. *)
Record publication : Type := Publication {
  topic : string;
  payload : value;
  qos : Z;
  retain : bool
}.

Inductive level : Type := Level_info | Level_warn | Level_error.

Record server : Type := Server {
  schema : schema_t;
  mqttURL : string;
  registrations : gmap string (list registration);
  iteratorTimeout : gmap string nat;
  iterators : list iterator;
  timers : list timer;
  loops : list loop;
  published : list publication;
  console : list (level * list string);
  now : Z
}.

Definition new_server (sch : schema_t) (url : string) (t0 : Z) : server :=
  Server sch url ∅ ∅ [] [] [] [] [] t0.

Definition set_registrations (f : gmap string (list registration) -> gmap string (list registration))
  (s : server) : server :=
  Server (schema s) (mqttURL s) (f (registrations s)) (iteratorTimeout s)
    (iterators s) (timers s) (loops s) (published s) (console s) (now s).

Definition set_iteratorTimeout (f : gmap string nat -> gmap string nat) (s : server) : server :=
  Server (schema s) (mqttURL s) (registrations s) (f (iteratorTimeout s))
    (iterators s) (timers s) (loops s) (published s) (console s) (now s).

Definition set_iterators (f : list iterator -> list iterator) (s : server) : server :=
  Server (schema s) (mqttURL s) (registrations s) (iteratorTimeout s)
    (f (iterators s)) (timers s) (loops s) (published s) (console s) (now s).

Definition set_timers (f : list timer -> list timer) (s : server) : server :=
  Server (schema s) (mqttURL s) (registrations s) (iteratorTimeout s)
    (iterators s) (f (timers s)) (loops s) (published s) (console s) (now s).

Definition set_loops (f : list loop -> list loop) (s : server) : server :=
  Server (schema s) (mqttURL s) (registrations s) (iteratorTimeout s)
    (iterators s) (timers s) (f (loops s)) (published s) (console s) (now s).

Definition set_published (f : list publication -> list publication) (s : server) : server :=
  Server (schema s) (mqttURL s) (registrations s) (iteratorTimeout s)
    (iterators s) (timers s) (loops s) (f (published s)) (console s) (now s).

Definition set_now (t : Z) (s : server) : server :=
  Server (schema s) (mqttURL s) (registrations s) (iteratorTimeout s)
    (iterators s) (timers s) (loops s) (published s) (console s) t.

(** [consola.info / warn / error] *)
Definition log (l : level) (line : list string) (s : server) : server :=
  Server (schema s) (mqttURL s) (registrations s) (iteratorTimeout s)
    (iterators s) (timers s) (loops s) (published s) (console s ++ [(l, line)]) (now s).

(** *** Async iterators *)

Definition fresh_iterator : iterator := AsyncIterator [] false.

(** [it.return()]: the stream is over and what was queued is dropped. *)
Definition close (it : iterator) : iterator := AsyncIterator [] true.

Definition iterator_return (i : nat) (s : server) : server :=
  set_iterators (alter close i) s.

(** The engine produces [e] on stream [i]; a returned stream takes nothing. *)
Definition push (e : value) (it : iterator) : iterator :=
  if done it then it else AsyncIterator (queue it ++ [e]) false.

Definition emit (i : nat) (e : value) (s : server) : server :=
  set_iterators (alter (push e) i) s.

(** *** Timers *)

Definition is_armed (tm : timer) : bool :=
  match status tm with Armed => true | _ => false end.

Definition with_status (st : timer_status) (tm : timer) : timer :=
  Timer (deadline tm) (target tm) st.

(** [clearTimeout(h)]: only a timer still waiting is affected. *)
Definition clear (tm : timer) : timer :=
  if is_armed tm then with_status Cleared tm else tm.

Definition clearTimeout (h : nat) (s : server) : server :=
  set_timers (alter clear h) s.

(** [setTimeout(() => asyncIterator.return(), delay)]; the handle is the
    position in the timer queue. *)
Definition setTimeout (i : nat) (delay : Z) (s : server) : nat * server :=
  (length (timers s), set_timers (fun tms => tms ++ [Timer (now s + delay) i Armed]) s).

Definition due (t : Z) (tm : timer) : bool := is_armed tm && (deadline tm <=? t).

Definition expire (t : Z) (tm : timer) : timer :=
  if due t tm then with_status Fired tm else tm.

Definition due_targets (t : Z) (tms : list timer) : list nat :=
  target <$> filter (fun tm => due t tm = true) tms.

Definition return_all (targets : list nat) (its : list iterator) : list iterator :=
  foldr (alter close) its targets.

(** The clock moves on by [dt] milliseconds and every callback that has
    come due runs. *)
Definition tick (dt : Z) (s : server) : server :=
  let t := now s + Z.max 0 dt in
  set_now t
    (set_iterators (return_all (due_targets t (timers s)))
      (set_timers (fmap (expire t)) s)).

(** *** register *)

Record mqttConnection : Type := MqttConnection {
  url : string;
  topics : list string;
  client : string
}.

Record newSubscription : Type := NewSubscription {
  subscription_topic : string;
  expireTime : Z
}.

(** What [register] resolves to: the handshake (whose [data] and [errors]
    are null), or the [{ errors, data }] of a refused subscription. *)
Inductive response : Type :=
| Handshake (mqttConnections : list mqttConnection)
    (newSubscriptions : list (string * newSubscription))
| Refused (errors : value) (data : value).

Definition subscribeToGraphQL (reg_context : context_t) (reg_documentAST reg_variables : value)
  (s : server) : outcome :=
  schema s reg_documentAST reg_variables reg_context.

(** [regs.map(reg => reg.topicId)] *)
Definition topic_ids (regs : list registration) : list string :=
  topicId <$> regs.

(** [uuid] is the value [uuid()] returns for this call. *)
Definition register (documentAST variables : value) (context : context_t) (uuid : string)
  (s : server) : response * server :=
  let clientId := sub context in
  let topicId := uuid in
  let s := log Level_info ["Register"; clientId; topicId] s in
  let out := subscribeToGraphQL context documentAST variables s in
  match returned out with
  | ExecutionResult addr errors data =>
      (Refused (js_or (appsyncErrors out) (JArray addr errors)) (js_or data JNull), s)
  | Iterator =>
      let asyncIterator := length (iterators s) in
      let s := set_iterators (fun its => its ++ [fresh_iterator]) s in
      let registration :=
        Registration context documentAST variables topicId asyncIterator true in
      let currentRegistrations :=
        default [] (registrations s !! clientId) ++ [registration] in
      let s := set_registrations <[clientId := currentRegistrations]> s in
      let (handle, s) := setTimeout asyncIterator ConnectTimeout s in
      let s := set_iteratorTimeout <[clientId := handle]> s in
      let s := log Level_info ["subscription handshake sent"; clientId; mqttURL s; topicId] s in
      (Handshake
         [MqttConnection (mqttURL s) (topic_ids currentRegistrations) clientId]
         [(topicId, NewSubscription topicId (now s + TopicExpires))],
       s)
  end.

(** *** The broker handlers *)

Definition onClientConnect (clientId : string) (s : server) : server :=
  let s := log Level_info ["client connected to subscription server"; clientId] s in
  match iteratorTimeout s !! clientId with
  | Some timeout => clearTimeout timeout s
  | None => s
  end.

(** [regs.find(({ topicId }) => topicId === topic)], with the position of
    the registration found. *)
Definition find_registration (topic : string) (regs : list registration)
  : option (nat * registration) :=
  list_find (fun reg => topicId reg = topic) regs.

Definition assign (it : nat) (registered : bool) (reg : registration) : registration :=
  Registration (context reg) (documentAST reg) (variables reg) (topicId reg) it registered.

Definition set_isRegistered (registered : bool) (reg : registration) : registration :=
  assign (asyncIterator reg) registered reg.

(** The registration at position [i] of the client's array is the object
    mutated in place. *)
Definition store (clientId : string) (i : nat) (reg : registration) (s : server) : server :=
  set_registrations (alter (fun regs => <[i := reg]> regs) clientId) s.

(** Entering [while (true)]: the first [next()] is now pending. *)
Definition start_loop (clientId : string) (reg : registration) (s : server) : server :=
  set_loops
    (fun ls => ls ++ [Loop clientId (asyncIterator reg) (topicId reg) (variables reg) Running]) s.

Definition onClientSubscribed (topic clientId : string) (s : server) : server :=
  let s := log Level_info ["client subscribed to"; clientId; topic] s in
  match registrations s !! clientId with
  | None => log Level_error ["No registration for clientId"; clientId] s
  | Some regs =>
      match find_registration topic regs with
      | None => log Level_error ["Not subscribed to topicId for clientId"; topic; clientId] s
      | Some (i, reg) =>
          if negb (isRegistered reg) then
            let out :=
              subscribeToGraphQL (context reg) (documentAST reg) (variables reg) s in
            match returned out with
            | ExecutionResult _ _ _ => log Level_error ["Error(s) subcribing via graphql"] s
            | Iterator =>
                let asyncIterator := length (iterators s) in
                let s := set_iterators (fun its => its ++ [fresh_iterator]) s in
                let reg := assign asyncIterator true reg in
                start_loop clientId reg (store clientId i reg s)
            end
          else start_loop clientId reg s
      end
  end.

Definition onClientUnsubscribed (topic clientId : string) (s : server) : server :=
  let s := log Level_info ["Client unsubscribed to"; clientId; topic] s in
  match registrations s !! clientId with
  | None => log Level_warn ["Unsubscribe topic from client with unknown id"; topic; clientId] s
  | Some regs =>
      match find_registration topic regs with
      | None => log Level_warn ["Unsubscribe unregistered topic from client"; topic; clientId] s
      | Some (i, reg) =>
          let s := iterator_return (asyncIterator reg) s in
          store clientId i (set_isRegistered false reg) s
      end
  end.

Definition onClientDisconnect (clientId : string) (s : server) : server :=
  let s := log Level_info ["Client disconnected to subscription server"; clientId] s in
  match registrations s !! clientId with
  | None => log Level_warn ["Disconnecting client with unknown id"; clientId] s
  | Some _ => s
  end.

(** *** One turn of a consumption loop *)

Definition settle (st : loop_status) (lp : loop) : loop :=
  Loop (loop_clientId lp) (loop_asyncIterator lp) (loop_topicId lp) (loop_variables lp) st.

Definition publish (p : publication) (s : server) : server :=
  set_published (fun ps => ps ++ [p]) s.

(** The pending [await asyncIterator.next()] of loop [l] settles, if it
    can, and the body of the [while] runs once. *)
Definition next (l : nat) (s : server) : server :=
  match loops s !! l with
  | None => s
  | Some lp =>
      match loop_status_of lp with
      | Running =>
          match iterators s !! loop_asyncIterator lp with
          | None => s
          | Some it =>
              if done it then set_loops (alter (settle Finished) l) s
              else
                match queue it with
                | [] => s
                | payload :: rest =>
                    let s :=
                      set_iterators
                        (fun its => <[loop_asyncIterator lp := AsyncIterator rest false]> its) s in
                    match shouldPublishSubscription payload (loop_variables lp) with
                    | Throw _ => set_loops (alter (settle Rejected) l) s
                    | Ok false =>
                        log Level_info ["Skipping publish"; loop_clientId lp; loop_topicId lp] s
                    | Ok true =>
                        let s := log Level_info ["Publish"; loop_clientId lp; loop_topicId lp] s in
                        let s := log Level_info ["publish"; loop_clientId lp; loop_topicId lp] s in
                        publish (Publication (loop_topicId lp) payload 0 false) s
                    end
                end
          end
      | _ => s
      end
  end.

(** *** What can happen to a server *)

Inductive event : Type :=
| Request (documentAST variables : value) (context : context_t) (uuid : string)
| ClientConnected (clientId : string)
| ClientDisconnected (clientId : string)
| Subscribed (topic clientId : string)
| Unsubscribed (topic clientId : string)
| Elapse (dt : Z)
| Produce (i : nat) (e : value)
| Next (l : nat).

Definition step (ev : event) (s : server) : server :=
  match ev with
  | Request documentAST variables context uuid =>
      (register documentAST variables context uuid s).2
  | ClientConnected clientId => onClientConnect clientId s
  | ClientDisconnected clientId => onClientDisconnect clientId s
  | Subscribed topic clientId => onClientSubscribed topic clientId s
  | Unsubscribed topic clientId => onClientUnsubscribed topic clientId s
  | Elapse dt => tick dt s
  | Produce i e => emit i e s
  | Next l => next l s
  end.

Definition run (evs : list event) (s : server) : server :=
  foldl (fun s ev => step ev s) s evs.


(* ===================================================================== *)
(** ** Vocabulary of the properties *)
(* ===================================================================== *)

(** The variables agree with the inspected field, entry by entry. *)
Definition field_matches (payloadData : value) (entries : list (string * value)) : bool :=
  forallb (fun entry => strict_eq (own payloadData entry.1) entry.2) entries.

(** The event is there and so is its [data]. *)
Definition carries_body (e : value) : bool :=
  negb (is_nullish e) && negb (is_nullish (data_of e)).

(** All that the handlers and the runtime keep, the console apart. *)
Definition same_state (s s' : server) : Prop :=
  registrations s' = registrations s /\
  iteratorTimeout s' = iteratorTimeout s /\
  iterators s' = iterators s /\
  timers s' = timers s /\
  loops s' = loops s /\
  published s' = published s /\
  now s' = now s.

(** The same, the list of loops apart too. *)
Definition same_stores (s s' : server) : Prop :=
  registrations s' = registrations s /\
  iteratorTimeout s' = iteratorTimeout s /\
  iterators s' = iterators s /\
  timers s' = timers s /\
  published s' = published s /\
  now s' = now s.

(** The handler printed its opening line and one line at [lvl], and did
    nothing else. *)
Definition only_logged (lvl : level) (s s' : server) : Prop :=
  exists opening line, s' = log lvl line (log Level_info opening s).

(** No registration of [clientId] carries [topic]. *)
Definition no_registration (topic clientId : string) (s : server) : Prop :=
  match registrations s !! clientId with
  | None => True
  | Some regs => Forall (fun reg => topicId reg <> topic) regs
  end.

(** The registrations of a client, in the order of its array. *)
Definition registrations_of (clientId : string) (s : server) : list registration :=
  default [] (registrations s !! clientId).

(** The topic ids that the requests of [evs] register for [clientId]:
    those the engine accepts, in order. *)
Definition registered_by (sch : schema_t) (clientId : string) (evs : list event) : list string :=
  omap (fun ev =>
    match ev with
    | Request documentAST variables context uuid =>
        match returned (sch documentAST variables context) with
        | Iterator => if decide (sub context = clientId) then Some uuid else None
        | ExecutionResult _ _ _ => None
        end
    | _ => None
    end) evs.

(** Milliseconds that pass during [evs]. *)
Definition elapsed (evs : list event) : Z :=
  foldr (fun ev t => match ev with Elapse dt => Z.max 0 dt + t | _ => t end) 0 evs.

Definition is_connect_of (clientId : string) (ev : event) : Prop :=
  match ev with
  | ClientConnected c => c = clientId
  | _ => False
  end.


Definition closed : iterator := AsyncIterator [] true.


(** The engine took the request this registration was made from. *)
Definition accepted (s : server) (reg : registration) : Prop :=
  returned (schema s (documentAST reg) (variables reg) (context reg)) = Iterator.

(** What holds of every server that started empty: the references kept
    in the tables point into the runtime's heaps. *)
Record well_formed (s : server) : Prop := WellFormed {
  wf_accepted : forall c regs reg,
    registrations s !! c = Some regs -> reg ∈ regs -> accepted s reg;
  wf_iterator : forall c regs reg,
    registrations s !! c = Some regs -> reg ∈ regs ->
    (asyncIterator reg < length (iterators s))%nat;
  wf_handle : forall c h,
    iteratorTimeout s !! c = Some h -> (h < length (timers s))%nat;
  wf_target : forall h tm,
    timers s !! h = Some tm -> (target tm < length (iterators s))%nat
}.

(** The timeout [h] that a register call of [clientId] set on stream [i]
    for time [D], as long as only that client's slot of [iteratorTimeout]
    can hold it: it is still waiting, or the stream has been returned. *)
Record pending_timeout (clientId : string) (h i : nat) (D : Z) (s : server) : Prop :=
  PendingTimeout {
    pt_well_formed : well_formed s;
    pt_owner : forall c, iteratorTimeout s !! c = Some h -> c = clientId;
    pt_handle : (h < length (timers s))%nat;
    pt_stream : (i < length (iterators s))%nat;
    pt_timer :
      (timers s !! h = Some (Timer D i Armed) /\ now s < D) \/
      iterators s !! i = Some closed
  }.





Definition reachable (s : server) : Prop :=
  exists sch url t0 evs, s = run evs (new_server sch url t0).

(** *** Sample inputs *)

Definition accept_all : schema_t := fun _ _ _ => Outcome Iterator JUndefined.

Definition refuse_all : schema_t :=
  fun _ _ _ => Outcome (ExecutionResult 7 [JString "Unknown field"] JUndefined) JUndefined.

(** The engine refuses, and a resolver has left errors of its own in
    [context.appsyncErrors]. *)
Definition refuse_after_resolver_error : schema_t :=
  fun _ _ _ =>
    Outcome (ExecutionResult 7 [JString "Unknown field"] JUndefined)
      (JArray 8 [JString "Unauthorized"]).

Definition alice : context_t := Context "alice" JNull.

Definition event_created (addr : nat) (id : string) : value :=
  JObject addr
    [("data", JObject (S addr) [("onCreate", JObject (S (S addr)) [("id", JString id)])])].

Definition event_null_field : value :=
  JObject 1 [("data", JObject 2 [("onCreate", JNull)])].

Definition event_empty_body : value := JObject 1 [("data", JObject 2 [])].

Definition event_null_body : value := JObject 1 [("data", JNull)].

Definition variables_id (id : string) : value := JObject 0 [("id", JString id)].

Definition no_variables : value := JObject 0 [].

Definition empty_server : server := new_server accept_all "ws://localhost:0/" 0.

Definition refusing_server : server := new_server refuse_all "ws://localhost:0/" 0.

Definition resolver_error_server : server :=
  new_server refuse_after_resolver_error "ws://localhost:0/" 0.

Definition registered_server : server :=
  run [Request JNull no_variables alice "t1"] empty_server.

Definition active_server : server :=
  run [Subscribed "t1" "alice"] registered_server.





Ltac handler_cases :=
  repeat match goal with
  | |- context [match ?x with _ => _ end] => destruct x
  end.

(* ===================================================================== *)
(** ** Further vocabulary: runs of the server *)
(* ===================================================================== *)

(** The server with its console wiped: what the handlers and the runtime
    act on. *)
Definition mute (s : server) : server :=
  Server (schema s) (mqttURL s) (registrations s) (iteratorTimeout s)
    (iterators s) (timers s) (loops s) (published s) [] (now s).

Definition is_disconnect (ev : event) : bool :=
  match ev with
  | ClientDisconnected _ => true
  | _ => false
  end.

(** The events of [evs] but the disconnects. *)
Definition without_disconnects (evs : list event) : list event :=
  List.filter (fun ev => negb (is_disconnect ev)) evs.

(** The number of loop turns in [evs]. *)
Definition turns (evs : list event) : nat :=
  length (List.filter (fun ev => match ev with Next _ => true | _ => false end) evs).

(** A registration of [s] carries topic [t] and variables [vars]. *)
Definition registered_topic (s : server) (t : string) (vars : value) : Prop :=
  exists c regs reg,
    registrations s !! c = Some regs /\ reg ∈ regs /\
    topicId reg = t /\ variables reg = vars.

(** Every loop was entered for a registration that is still there. *)
Definition loops_registered (s : server) : Prop :=
  forall l lp, loops s !! l = Some lp ->
    registered_topic s (loop_topicId lp) (loop_variables lp).

(** Every publication is at-most-once, not retained, and went through the
    filter with the variables of a registration of its topic. *)
Definition published_for_registrations (s : server) : Prop :=
  forall p, p ∈ published s ->
    qos p = 0 /\ retain p = false /\
    exists vars, registered_topic s (topic p) vars /\
      shouldPublishSubscription (payload p) vars = Ok true.

(** The filter returns on [e], with these variables. *)
Definition filter_returns (vars e : value) : Prop :=
  exists b, shouldPublishSubscription e vars = Ok b.

Definition passes (vars e : value) : bool :=
  match shouldPublishSubscription e vars with
  | Ok true => true
  | _ => false
  end.

(** The publications of the events of [es] that pass, in order. *)
Definition deliveries (t : string) (vars : value) (es : list value) : list publication :=
  (fun e => Publication t e 0 false) <$> List.filter (passes vars) es.

(** The engine produces [es] on stream [i], then loop [l] takes as many
    turns. *)
Definition produce_then_drain (i l : nat) (es : list value) : list event :=
  (Produce i <$> es) ++ replicate (length es) (Next l).

(** The timeout [h] on stream [i] for time [D] once no slot of
    [iteratorTimeout] holds its handle: nothing can clear it. *)
Record orphaned_timeout (h i : nat) (D : Z) (s : server) : Prop :=
  OrphanedTimeout {
    ot_well_formed : well_formed s;
    ot_unowned : forall c, iteratorTimeout s !! c <> Some h;
    ot_handle : (h < length (timers s))%nat;
    ot_stream : (i < length (iterators s))%nat;
    ot_timer :
      (timers s !! h = Some (Timer D i Armed) /\ now s < D) \/
      iterators s !! i = Some closed
  }.

Definition unsubscribes (t : string) (ev : event) : Prop :=
  match ev with
  | Unsubscribed t' _ => t' = t
  | _ => False
  end.

Definition is_request_of (clientId : string) (ev : event) : Prop :=
  match ev with
  | Request _ _ context _ => sub context = clientId
  | _ => False
  end.

(** Stream [i] is open, only registrations under [uuid] hold it and only
    timer [h] aims at it. *)
Record open_stream (uuid : string) (h i : nat) (s : server) : Prop :=
  OpenStream {
    os_well_formed : well_formed s;
    os_holder : forall c regs reg,
      registrations s !! c = Some regs -> reg ∈ regs ->
      asyncIterator reg = i -> topicId reg = uuid;
    os_target : forall h' tm,
      timers s !! h' = Some tm -> target tm = i -> h' = h;
    os_open : exists q, iterators s !! i = Some (AsyncIterator q false)
  }.

(** Timer [h] has been cleared or has run. *)
Definition disarmed (h : nat) (s : server) : Prop :=
  exists tm, timers s !! h = Some tm /\ is_armed tm = false.

(** *** More sample inputs *)

Definition sample_events : list value :=
  [event_created 10 "1"; event_null_body; event_created 20 "2"].

Definition delivering_run : list event :=
  [Request JNull no_variables alice "t1"; Subscribed "t1" "alice";
   Produce 0 (event_created 10 "1"); Next 0].

(** A loop with variables [{ id: "1" }] whose stream holds an event with
    a null field, then a good one. *)
Definition faulty_stream_server : server :=
  run [Request JNull (variables_id "1") alice "t1"; Subscribed "t1" "alice";
       Produce 0 event_null_field; Produce 0 (event_created 10 "1")]
    empty_server.

(* ===================================================================== *)
(** ** Exceptions with a message, and objects built by spreading *)
(* ===================================================================== *)

Module Raising.

Inductive exn : Type :=
| Error (message : string)
| GraphQLError (message : string)
| Type_error
| Thrown (v : value).

Inductive outcome (A : Type) : Type :=
| Return (a : A)
| Raise (e : exn).
Arguments Return {A} a.
Arguments Raise {A} e.

Definition obind {A B} (m : outcome A) (k : A -> outcome B) : outcome B :=
  match m with
  | Return a => k a
  | Raise e => Raise e
  end.

Notation "'let!' x ':=' m 'in' k" := (obind m (fun x => k))
  (at level 10, x name, m at level 100, k at level 200).

(** A TypeError of the runtime, as an exception among the others. *)
Definition lift {A} (r : result A) : outcome A :=
  match r with
  | Ok a => Return a
  | Throw TypeError => Raise Type_error
  end.

(** The own properties of an object under construction, in the order
    they were first written (index-like keys apart, which JavaScript lists
    first; lookups do not depend on it). *)
Definition props : Type := list (string * value).

(** [o[k] = v] *)
Fixpoint set_prop (k : string) (v : value) (o : props) : props :=
  match o with
  | [] => [(k, v)]
  | (k', x) :: o' =>
      if String.eqb k' k then (k', v) :: o' else (k', x) :: set_prop k v o'
  end.

Definition set_all (entries : props) (o : props) : props :=
  foldl (fun o entry => set_prop entry.1 entry.2 o) o entries.

(** What [...v] copies: nothing for null, undefined, booleans and
    numbers. *)
Definition spreadable (v : value) : props :=
  match v with
  | JUndefined | JNull | JBool _ | JNumber _ | JNaN => []
  | JString s => indexed (chars s)
  | JArray _ items => indexed items
  | JObject _ fields => fields
  end.

(** [{ ...o, ...v }] *)
Definition spread (v : value) (o : props) : props := set_all (spreadable v) o.

(** The value that writing [entries] in order leaves under [k]. *)
Definition written (k : string) (entries : props) : option value :=
  assoc k (reverse entries).

(** A destructuring default: [= d] applies to undefined only. *)
Definition with_default (v d : value) : value :=
  match v with
  | JUndefined => d
  | _ => v
  end.

Definition empty_object : value := JObject 0 [].

(** The first of the options that is there. *)
Fixpoint first_some {A} (l : list (option A)) : option A :=
  match l with
  | [] => None
  | Some x :: _ => Some x
  | None :: l' => first_some l'
  end.

End Raising.
Import Raising.

(* ===================================================================== *)
(** ** lambdaSource *)
(* ===================================================================== *)

Module Lambda.

Definition dot : Ascii.ascii := Eval cbv in Ascii.ascii_of_nat 46.

(** [s.split('.')] *)
Fixpoint split_dot (s : string) : list string :=
  match s with
  | EmptyString => [EmptyString]
  | String c s' =>
      if Ascii.eqb c dot then EmptyString :: split_dot s'
      else
        match split_dot s' with
        | [] => [String c EmptyString]
        | p :: ps => String c p :: ps
        end
  end.

(** No character of [s] is a dot. *)
Fixpoint dot_free (s : string) : bool :=
  match s with
  | EmptyString => true
  | String c s' => negb (Ascii.eqb c dot) && dot_free s'
  end.

(** What [fork(Runner, [], childOptions)] and [child.send(...)] hand to
    the child: its environment, [execArgv] when it is set, and the
    message. *)
Record invocation : Type := Invocation {
  env : props;
  execArgv : option (list string);
  module : value;
  handlerPath : string;
  handlerMethod : value;
  payload_sent : value
}.

(** [path.join(...)], which takes strings only. *)
Definition join_paths (path_join : list string -> string) (parts : list value)
  : outcome string :=
  match parts with
  | [JString a; JString b; JString c] => Return (path_join [a; b; c])
  | _ => Raise Type_error
  end.

(** [custom.appSyncOffline && custom.appSyncOffline.lambda &&
     custom.appSyncOffline.lambda.prefix ? ... : ''] *)
Definition buildPrefix (custom : value) : outcome value :=
  let! offline := lift (get custom "appSyncOffline") in
  if truthy offline then
    if truthy (own offline "lambda") then
      if truthy (own (own offline "lambda") "prefix")
      then Return (own (own offline "lambda") "prefix")
      else Return (JString "")
    else Return (JString "")
  else Return (JString "").

(** [Object.entries(dynamodbTables).reduce(...)] *)
Definition dynamodbTableAliases (tables : props) : props :=
  set_all ((fun entry => (("DYNAMODB_TABLE_" ++ entry.1)%string, entry.2)) <$> tables) [].

(** [v] has a property of its own under [k]. *)
Definition has_own (v : value) (k : string) : bool :=
  match v with
  | JObject _ fields => bool_decide (is_Some (assoc k fields))
  | JArray _ items =>
      bool_decide (is_Some (assoc k (indexed items))) || String.eqb k "length"
  | JString s =>
      bool_decide (is_Some (assoc k (indexed (chars s)))) || String.eqb k "length"
  | _ => false
  end.

(** What [v[k]] finds when [k] is any string: the property of [v] itself,
    or one that [v] inherits from its prototypes (a method such as
    [toString], or the prototype under [__proto__]), or nothing. *)
Inductive member : Type :=
| Own (x : value)
| Inherited
| Missing.

(** [v[k]] for a key that comes from outside.  [inherits v k] tells
    whether the prototypes of [v] have the key. *)
Definition lookup_member (inherits : value -> string -> bool) (v : value) (k : string)
  : result member :=
  if is_nullish v then Throw TypeError
  else if has_own v k then Ok (Own (own v k))
  else if inherits v k then Ok Inherited
  else Ok Missing.

(** The body of [lambdaSource] up to [child.send].  An inherited
    [functions[fn]] is a function or a prototype object: it is truthy and
    has no [handler], so that [fnConfig.handler.split] is a TypeError. *)
Definition lambda_request (inherits : value -> string -> bool)
    (path_join : list string -> string) (process_env : props)
    (dynamodbEndpoint dynamodbTables serverlessConfig serverlessDirectory : value)
    (fn : string) (payload : value) : outcome invocation :=
  let! functions := lift (get serverlessConfig "functions") in
  let! custom := lift (get serverlessConfig "custom") in
  let! provider := lift (get serverlessConfig "provider") in
  let functions := with_default functions empty_object in
  let custom := with_default custom empty_object in
  let provider := with_default provider empty_object in
  let! found := lift (lookup_member inherits functions fn) in
  match found with
  | Missing => Raise (Error ("Cannot find function config for function : " ++ fn))
  | Inherited => let! prefix := buildPrefix custom in Raise Type_error
  | Own fnConfig =>
  if negb (truthy fnConfig)
  then Raise (Error ("Cannot find function config for function : " ++ fn))
  else
    let! prefix := buildPrefix custom in
    match own fnConfig "handler" with
    | JString handler =>
        let parts := split_dot handler in
        let handlerPath := default EmptyString (parts !! 0%nat) in
        let handlerMethod :=
          match parts !! 1%nat with Some m => JString m | None => JUndefined end in
        let! fullPath :=
          join_paths path_join [serverlessDirectory; prefix; JString handlerPath] in
        let! tables := lift (Object_entries dynamodbTables) in
        let! providerEnvironment := lift (get provider "environment") in
        let env :=
          spread (own fnConfig "environment")
            (spread providerEnvironment
               (set_prop "DYNAMODB_ENDPOINT" dynamodbEndpoint
                  (set_all (dynamodbTableAliases tables) (set_all process_env [])))) in
        let execArgv :=
          if truthy (or_undefined (assoc "SLS_DEBUG" process_env))
          then Some ["--inspect-brk"%string] else None in
        Return (Invocation env execArgv (JString fullPath) handlerPath handlerMethod payload)
    | _ => Raise Type_error
    end
  end.

(** [switch (response.type)] *)
Definition lambda_response (response : value) : outcome value :=
  let! type := lift (get response "type") in
  if strict_eq type (JString "error") then Raise (Thrown (own response "error"))
  else if strict_eq type (JString "success") then Return (own response "output")
  else Raise (Error "Unknown response type").

(** [child] is the message the forked runner answers with. *)
Definition lambdaSource (inherits : value -> string -> bool)
    (path_join : list string -> string) (process_env : props)
    (child : invocation -> value)
    (dynamodbEndpoint dynamodbTables serverlessConfig serverlessDirectory : value)
    (fn : string) (payload : value) : outcome value :=
  let! request :=
    lambda_request inherits path_join process_env dynamodbEndpoint dynamodbTables
      serverlessConfig serverlessDirectory fn payload in
  lambda_response (child request).

End Lambda.

(* ===================================================================== *)
(** ** httpSource *)
(* ===================================================================== *)

Module Http.

(** [Object.keys(v)] *)
Definition Object_keys (v : value) : result (list string) :=
  let* entries := Object_entries v in Ok (fst <$> entries).

(** [`?${new URLSearchParams(query)}`]; [encode] is
    [String(new URLSearchParams(query))], which throws on a query it
    cannot read (an array whose items are not pairs). *)
Definition with_question_mark (encode : value -> outcome string) (query : value)
  : outcome string :=
  let! encoded := encode query in Return ("?" ++ encoded)%string.

(** The [queryPath] of the request. *)
Definition queryPath (encode : value -> outcome string) (query : value) : outcome string :=
  match query with
  | JUndefined => Return EmptyString
  | _ =>
      if is_object_tag (typeof query) then
        let! keys := lift (Object_keys query) in
        if Nat.eqb (length keys) 0 then Return EmptyString
        else with_question_mark encode query
      else with_question_mark encode query
  end.

(** The url and the options that [httpSource] gives to [fetch]. *)
Definition http_request (encode : value -> outcome string) (endpoint resourcePath : string)
    (method params : value) : outcome (string * props) :=
  let query := own (if truthy params then params else empty_object) "query" in
  let! path := queryPath encode query in
  Return ((endpoint ++ resourcePath ++ path)%string,
          set_prop "method" method (spread params [])).

Record http_result : Type := HttpResult {
  body : string;
  statusCode : value
}.

(** [fetch] answers with the text of the body and the status. *)
Definition httpSource (encode : value -> outcome string)
    (fetch : string -> props -> string * value)
    (endpoint resourcePath : string) (method params : value) : outcome http_result :=
  let! request := http_request encode endpoint resourcePath method params in
  let response := fetch request.1 request.2 in
  Return (HttpResult response.1 response.2).

End Http.

(* ===================================================================== *)
(** ** The AWSPhone scalar *)
(* ===================================================================== *)

Module Scalars.

(** The kind of a literal of the query: [Kind.STRING] or another. *)
Inductive kind : Type :=
| STRING
| OTHER (name : string).

Record ast : Type := Ast {
  ast_kind : kind;
  ast_value : value
}.

Definition kind_name (k : kind) : string :=
  match k with
  | STRING => "StringValue"
  | OTHER name => name
  end.

(** [isValidNumber] is the check of libphonenumber-js: it answers true
    or false, or throws (as it does on a value that is not a string). *)
Definition phoneValidator (isValidNumber : value -> outcome bool) (a : ast) : outcome value :=
  match ast_kind a with
  | OTHER name =>
      Raise (GraphQLError ("Query error: Can only parse strings got a: " ++ name))
  | STRING =>
      let! isValid := isValidNumber (ast_value a) in
      if negb isValid
      then Raise (GraphQLError "Query error: Not a valid phone number")
      else Return (ast_value a)
  end.

Definition AWSPhone_serialize (isValidNumber : value -> outcome bool) (v : value) : outcome value :=
  phoneValidator isValidNumber (Ast STRING v).

Definition AWSPhone_parseValue (isValidNumber : value -> outcome bool) (v : value) : outcome value :=
  phoneValidator isValidNumber (Ast STRING v).

Definition AWSPhone_parseLiteral (isValidNumber : value -> outcome bool) (a : ast) : outcome value :=
  phoneValidator isValidNumber a.

End Scalars.

(** [functions[fn]] and [provider.environment], with the defaults of the
    parameter list. *)
Definition function_config (serverlessConfig : value) (fn : string) : value :=
  own (with_default (own serverlessConfig "functions") empty_object) fn.

Definition functions_of (serverlessConfig : value) : value :=
  with_default (own serverlessConfig "functions") empty_object.

Definition provider_environment (serverlessConfig : value) : value :=
  own (with_default (own serverlessConfig "provider") empty_object) "environment".

(** [(params || {}).query] *)
Definition query_of (params : value) : value :=
  own (if truthy params then params else empty_object) "query".

(** *** Sample inputs for these modules *)

Definition sample_config : value :=
  JObject 1
    [("functions",
      JObject 2
        [("hello",
          JObject 3
            [("handler", JString "src/handlers.hello");
             ("environment", JObject 4 [("STAGE", JString "fn")])])]);
     ("provider",
      JObject 5
        [("environment",
          JObject 6 [("STAGE", JString "provider"); ("REGION", JString "eu")])])].

Definition sample_tables : value := JObject 7 [("users", JString "users-dev")].

Definition sample_process_env : props :=
  [("PATH", JString "/bin"); ("REGION", JString "us")].

Definition join_with_slash (parts : list string) : string := String.concat "/" parts.

(** The names that every object inherits from Object.prototype. *)
Definition Object_prototype : list string :=
  ["constructor"; "__defineGetter__"; "__defineSetter__"; "hasOwnProperty";
   "__lookupGetter__"; "__lookupSetter__"; "isPrototypeOf"; "propertyIsEnumerable";
   "toString"; "valueOf"; "__proto__"; "toLocaleString"].

(** Stands for the prototype chain of a plain object (arrays and strings
    inherit more names than these). *)
Definition inherits_from_Object (v : value) (k : string) : bool :=
  bool_decide (elem_of k Object_prototype).

Definition echo_child (request : Lambda.invocation) : value :=
  JObject 9 [("type", JString "success"); ("output", Lambda.payload_sent request)].

(** No query string is asked for: [query] is undefined, or an object (an
    array) without keys. *)
Definition no_query (q : value) : Prop :=
  q = JUndefined \/ (typeof q = TObject /\ Object_entries q = Ok []).

(** A query string is asked for: [query] has keys, or is a primitive
    other than undefined and null. *)
Definition some_query (q : value) : Prop :=
  (q <> JUndefined /\ typeof q <> TObject) \/
  (typeof q = TObject /\ exists entry entries, Object_entries q = Ok (entry :: entries)).

Definition sample_params : value :=
  JObject 1
    [("query", JObject 2 [("page", JNumber 2)]);
     ("method", JString "GET");
     ("headers", JObject 3 [])].

(** Stands for URLSearchParams on the queries of the samples. *)
Definition sample_encode (q : value) : outcome string :=
  match q with
  | JObject _ [("page", JNumber 2)] => Return "page=2"%string
  | JArray _ (JNumber _ :: _) => Raise Type_error
  | _ => Return EmptyString
  end.

Definition sample_fetch (url : string) (options : props) : string * value :=
  (url, JNumber 200).

(** Stands for isValidNumber: strings are judged by their first
    character, other values are a TypeError. *)
Definition starts_with_plus (v : value) : outcome bool :=
  match v with
  | JString (String c _) => Return (Ascii.eqb c (Ascii.ascii_of_nat 43))
  | JString EmptyString => Return false
  | _ => Raise Type_error
  end.

(* ===================================================================== *)
(** ** executeGQL and createGQLHandler *)
(* ===================================================================== *)

Module Handler.

(** [String(v)], as a template literal computes it. *)
Fixpoint to_string (v : value) : string :=
  match v with
  | JUndefined => "undefined"
  | JNull => "null"
  | JBool true => "true"
  | JBool false => "false"
  | JNumber n => pretty n
  | JNaN => "NaN"
  | JString s => s
  | JArray _ items =>
      String.concat ","
        ((fix each (l : list value) : list string :=
            match l with
            | [] => []
            | x :: l' => (if is_nullish x then EmptyString else to_string x) :: each l'
            end) items)
  | JObject _ _ => "[object Object]"
  end.

(** What a call of graphql's [execute] leaves: its output and
    [context.appsyncErrors]. *)
Record executed : Type := Executed {
  output : value;
  appsyncErrors_after : value
}.

(** What [executeGQL] resolves to: the output of the engine, or a new
    object [{ data, errors }]. *)
Inductive gql_result : Type :=
| EngineOutput (output : value)
| ErrorOutput (data errors : value).

Definition executeGQL (execute : value -> props -> value -> value -> outcome executed)
    (documentAST : value) (context : props) (variables operationName : value)
  : outcome gql_result :=
  let! run := execute documentAST context variables operationName in
  if truthy (appsyncErrors_after run) then
    let! data := lift (get (output run) "data") in
    Return (ErrorOutput data (appsyncErrors_after run))
  else Return (EngineOutput (output run)).

(** [const { definitions: [{ operation: queryType }] } = documentAST] *)
Definition queryType (documentAST : value) : outcome value :=
  let! definitions := lift (get documentAST "definitions") in
  match definitions with
  | JArray _ (first :: _) => lift (get first "operation")
  | JString (String _ _) => Return JUndefined
  | _ => Raise Type_error
  end.

(** What the handler gives to [res.send]. *)
Inductive sent (R : Type) : Type :=
| SentValidationErrors (errors : list value)
| SentResult (result : gql_result)
| SentRegistration (response : R)
| SentErrorMessage (error : exn).
Arguments SentValidationErrors {R} errors.
Arguments SentResult {R} result.
Arguments SentRegistration {R} response.
Arguments SentErrorMessage {R} error.

Section handler.
(** The subscription server, with its [register], and the libraries. *)
Context {S R : Type}.
Variable jwtDecode : value -> outcome value.
Variable parse : value -> outcome value.
Variable validate : value -> list value.
Variable execute : value -> props -> value -> value -> outcome executed.
Variable register : props -> value -> value -> S -> R * S.

(** The [try] block; [s] is the state of the subscription server. *)
Definition attempt (req : value) (s : S) : outcome (sent R * S) :=
  let! headers := lift (get req "headers") in
  let! authorization := lift (get headers "authorization") in
  let! jwt :=
    if truthy authorization then jwtDecode authorization else Return empty_object in
  let! body := lift (get req "body") in
  let! variables := lift (get body "variables") in
  let query := own body "query" in
  let operationName := own body "operationName" in
  let! documentAST := parse query in
  let validationErrors := validate documentAST in
  if negb (Nat.eqb (length validationErrors) 0)
  then Return (SentValidationErrors validationErrors, s)
  else
    let! type := queryType documentAST in
    let context := [("jwt", jwt); ("request", req)] in
    if strict_eq type (JString "query") || strict_eq type (JString "mutation") then
      let! result := executeGQL execute documentAST context variables operationName in
      Return (SentResult result, s)
    else if strict_eq type (JString "subscription") then
      let (response, s') := register context documentAST variables s in
      Return (SentRegistration response, s')
    else Raise (Error ("unknown operation type: " ++ to_string type)).

(** The handler: what is thrown in the [try] block is sent as
    [{ errorMessage }]. *)
Definition createGQLHandler (req : value) (s : S) : sent R * S :=
  match attempt req s with
  | Return r => r
  | Raise e => (SentErrorMessage e, s)
  end.

End handler.

End Handler.

(** *** Sample request *)

Definition sample_document (operations : list value) : value :=
  JObject 20 [("kind", JString "Document"); ("definitions", JArray 21 operations)].

Definition operation_definition (operation : string) : value :=
  JObject 22 [("kind", JString "OperationDefinition"); ("operation", JString operation)].

Definition fragment_definition : value :=
  JObject 23 [("kind", JString "FragmentDefinition")].

Definition sample_req : value :=
  JObject 24
    [("headers", JObject 25 []);
     ("body", JObject 26 [("query", JString "fragment F on T { id } query { t { ...F } }")])].

Definition parse_fragment_first (query : value) : outcome value :=
  Return (sample_document [fragment_definition; operation_definition "query"]).

Definition parse_subscription (query : value) : outcome value :=
  Return (sample_document [operation_definition "subscription"]).

Definition no_decode (token : value) : outcome value := Raise (Error "Invalid token specified").

Definition no_errors (documentAST : value) : list value := [].

Definition some_errors (documentAST : value) : list value := [JString "Cannot query field"].

Definition execute_nothing (documentAST : value) (context : props)
    (variables operationName : value) : outcome Handler.executed :=
  Return (Handler.Executed (JObject 30 [("data", JNull)]) JUndefined).

(** A subscription server that counts the calls of [register]. *)
Definition counting_register (context : props) (documentAST variables : value) (s : nat)
  : string * nat :=
  ("handshake"%string, Datatypes.S s).

(** The request has headers and a body, its token (if any) decodes to
    [jwt] and its query parses to [documentAST]. *)
Definition well_received (jwtDecode parse : value -> outcome value)
    (req jwt documentAST : value) : Prop :=
  is_nullish req = false /\
  is_nullish (own req "headers") = false /\
  (if truthy (own (own req "headers") "authorization")
   then jwtDecode (own (own req "headers") "authorization") = Return jwt
   else jwt = empty_object) /\
  is_nullish (own req "body") = false /\
  parse (own (own req "body") "query") = Return documentAST.

(* ===================================================================== *)
(** ** ensureDynamodbTables *)
(* ===================================================================== *)

Module Dynamo.

(** [Object.values(v)] *)
Definition Object_values (v : value) : result (list value) :=
  let* entries := Object_entries v in Ok (snd <$> entries).

(** [l.filter(f)], where [f] may throw. *)
Fixpoint filter_throwing {A} (f : A -> outcome bool) (l : list A) : outcome (list A) :=
  match l with
  | [] => Return []
  | x :: l' =>
      let! keep := f x in
      let! rest := filter_throwing f l' in
      Return (if keep : bool then x :: rest else rest)
  end.

(** [x.type === name]; a TypeError on null and undefined. *)
Definition has_type (field name : string) (x : value) : outcome bool :=
  let! type := lift (get x field) in Return (strict_eq type (JString name)).

(** The body of the [async resource => ...] of the [map]: [createTable]
    answers with the error the call is rejected with, if it is. *)
Definition ensure_table (createTable : value -> option value) (resource : value)
  : outcome unit :=
  match createTable (own resource "Properties") with
  | None => Return tt
  | Some err =>
      let! code := lift (get err "code") in
      if negb (strict_eq code (JString "ResourceInUseException"))
      then Raise (Thrown err)
      else Return tt
  end.

(** [await Promise.all(promises)]: every call has been started; the
    rejection reported is taken to be the first in the order of the
    tables. *)
Fixpoint all_settled (promises : list (outcome unit)) : outcome unit :=
  match promises with
  | [] => Return tt
  | Return _ :: rest => all_settled rest
  | Raise e :: _ => Raise e
  end.

(** [{ ...sum, [source.config.tableName]: source.config.tableName }] *)
Definition add_table (sum : outcome props) (source : value) : outcome props :=
  let! sum := sum in
  let! config := lift (get source "config") in
  let! tableName := lift (get config "tableName") in
  Return (set_prop (Handler.to_string tableName) tableName sum).

Definition ensureDynamodbTables (createTable : value -> option value)
    (serverlessConfig appSyncConfig : value) : outcome props :=
  let! dataSources := lift (get appSyncConfig "dataSources") in
  let! resources := lift (get serverlessConfig "resources") in
  let! Resources := lift (get (with_default resources empty_object) "Resources") in
  let! values := lift (Object_values (with_default Resources empty_object)) in
  let! tables := filter_throwing (has_type "Type" "AWS::DynamoDB::Table") values in
  let! _ := all_settled (ensure_table createTable <$> tables) in
  match dataSources with
  | JArray _ sources =>
      let! dynamodbSources := filter_throwing (has_type "type" "AMAZON_DYNAMODB") sources in
      foldl add_table (Return []) dynamodbSources
  | _ => Raise Type_error
  end.

End Dynamo.

(** The data source is a DynamoDB one, on this table. *)
Definition dynamodb_source (name : string) (source : value) : Prop :=
  own source "type" = JString "AMAZON_DYNAMODB" /\
  own (own source "config") "tableName" = JString name.

(** A data source as the configuration has them: an object, with a
    [config] object when it is a DynamoDB one, whose table name is a
    string. *)
Definition plain_source (source : value) : Prop :=
  is_nullish source = false /\
  (own source "type" = JString "AMAZON_DYNAMODB" ->
   exists name, own (own source "config") "tableName" = JString name).

(** [createTable] succeeded, or was refused because the table exists. *)
Definition created_or_exists (createTable : value -> option value) (resource : value) : Prop :=
  match createTable (own resource "Properties") with
  | None => True
  | Some err =>
      is_nullish err = false /\ own err "code" = JString "ResourceInUseException"
  end.

Definition table_resource (name : string) : value :=
  JObject 40
    [("Type", JString "AWS::DynamoDB::Table");
     ("Properties", JObject 41 [("TableName", JString name)])].

Definition sample_serverless : value :=
  JObject 42
    [("resources",
      JObject 43
        [("Resources",
          JObject 44
            [("Users", table_resource "users");
             ("Bucket", JObject 45 [("Type", JString "AWS::S3::Bucket")])])])].

Definition sample_appsync : value :=
  JObject 46
    [("dataSources",
      JArray 47
        [JObject 48
           [("type", JString "AMAZON_DYNAMODB");
            ("config", JObject 49 [("tableName", JString "users")])];
         JObject 50 [("type", JString "AWS_LAMBDA")]])].

Definition table_exists (params : value) : option value :=
  Some (JObject 51 [("code", JString "ResourceInUseException")]).

(** The configuration has its tables under [resources.Resources] and
    its data sources in an array, all of them objects. *)
Definition configured (serverlessConfig appSyncConfig : value)
    (resources sources : list value) : Prop :=
  is_nullish appSyncConfig = false /\
  (exists addr, own appSyncConfig "dataSources" = JArray addr sources) /\
  Forall plain_source sources /\
  is_nullish serverlessConfig = false /\
  is_nullish (with_default (own serverlessConfig "resources") empty_object) = false /\
  Dynamo.Object_values
    (with_default
       (own (with_default (own serverlessConfig "resources") empty_object) "Resources")
       empty_object) = Ok resources /\
  Forall (fun resource => is_nullish resource = false) resources.

Definition sample_resources : list value :=
  [table_resource "users"; JObject 45 [("Type", JString "AWS::S3::Bucket")]].

Definition sample_sources : list value :=
  [JObject 48
     [("type", JString "AMAZON_DYNAMODB");
      ("config", JObject 49 [("tableName", JString "users")])];
   JObject 50 [("type", JString "AWS_LAMBDA")]].

Definition is_table (resource : value) : Prop :=
  own resource "Type" = JString "AWS::DynamoDB::Table".

Definition table_name (source : value) : string :=
  match own (own source "config") "tableName" with
  | JString name => name
  | _ => EmptyString
  end.

(* ===================================================================== *)
(** ** The event filter *)
(* ===================================================================== *)

Lemma every_matches payloadData entries :
  is_nullish payloadData = false ->
  every (matches payloadData) entries = Ok (field_matches payloadData entries).
Proof.
  intros Hn. induction entries as [|entry entries IH]; [reflexivity|].
  cbn [every field_matches forallb]. unfold matches at 1, get. rewrite Hn. cbn [bind].
  destruct (strict_eq _ _); [exact IH | reflexivity].
Qed.

Lemma every_matches_nullish payloadData entry entries :
  is_nullish payloadData = true ->
  every (matches payloadData) (entry :: entries) = Throw TypeError.
Proof. intros Hn. cbn [every]. unfold matches, get. rewrite Hn. reflexivity. Qed.

Lemma guard_body e :
  carries_body e = true ->
  is_nullish e || (is_object_tag (typeof e) && is_nullish (data_of e)) = false.
Proof.
  unfold carries_body. intros [H1 H2]%andb_prop.
  apply negb_true_iff in H1, H2. rewrite H1, H2, andb_false_r. reflexivity.
Qed.

Lemma guard_no_body e :
  is_nullish e = true \/ (typeof e = TObject /\ is_nullish (data_of e) = true) ->
  is_nullish e || (is_object_tag (typeof e) && is_nullish (data_of e)) = true.
Proof.
  intros [H|[H1 H2]]; [rewrite H; reflexivity|].
  rewrite H1, H2. apply orb_true_r.
Qed.

Lemma filter_no_body e v :
  is_nullish e = true \/ (typeof e = TObject /\ is_nullish (data_of e) = true) ->
  shouldPublishSubscription e v = Ok false.
Proof. intros H. unfold shouldPublishSubscription. rewrite guard_no_body by exact H. reflexivity. Qed.
(* ===================================================================== *)
(** ** Elementary facts about the server *)
(* ===================================================================== *)

Lemma find_registration_None topic regs :
  find_registration topic regs = None <-> Forall (fun reg => topicId reg <> topic) regs.
Proof. unfold find_registration. apply list_find_None. Qed.

Lemma find_registration_Some topic regs i reg :
  find_registration topic regs = Some (i, reg) ->
  regs !! i = Some reg /\ topicId reg = topic.
Proof. unfold find_registration. intros H. apply list_find_Some in H. tauto. Qed.

(** A turn of a loop publishes at most the event it takes off the queue. *)
Lemma next_published l s :
  published (next l s) = published s \/
  exists lp it e rest,
    loops s !! l = Some lp /\ loop_status_of lp = Running /\
    iterators s !! loop_asyncIterator lp = Some it /\
    done it = false /\ queue it = e :: rest /\
    shouldPublishSubscription e (loop_variables lp) = Ok true /\
    iterators (next l s) = <[loop_asyncIterator lp := AsyncIterator rest false]> (iterators s) /\
    published (next l s) = published s ++ [Publication (loop_topicId lp) e 0 false].
Proof.
  unfold next.
  destruct (loops s !! l) as [lp|] eqn:Hl; [|by left].
  destruct (loop_status_of lp) eqn:Hst; try by left.
  destruct (iterators s !! loop_asyncIterator lp) as [it|] eqn:Hit; [|by left].
  destruct (done it) eqn:Hd; [by left|].
  destruct (queue it) as [|e rest] eqn:Hq; [by left|].
  destruct (shouldPublishSubscription e (loop_variables lp)) as [[|]|] eqn:Hf; try by left.
  right. exists lp, it, e, rest. repeat split; try done.
Qed.

Lemma step_published ev s :
  published (step ev s) = published s \/
  exists l lp it e rest,
    ev = Next l /\ loops s !! l = Some lp /\
    iterators s !! loop_asyncIterator lp = Some it /\
    done it = false /\ queue it = e :: rest /\
    shouldPublishSubscription e (loop_variables lp) = Ok true /\
    published (step ev s) = published s ++ [Publication (loop_topicId lp) e 0 false].
Proof.
  destruct ev as [d v c u|c|c|t c|t c|dt|i e|l]; cbn [step].
  - left. unfold register. destruct (returned _); reflexivity.
  - left. unfold onClientConnect. cbn. destruct (_ !! _); reflexivity.
  - left. unfold onClientDisconnect. cbn. destruct (_ !! _); reflexivity.
  - left. unfold onClientSubscribed. cbn.
    destruct (_ !! _) as [regs|]; [|reflexivity].
    destruct (find_registration t regs) as [[i reg]|]; [|reflexivity].
    destruct (isRegistered reg); cbn; [reflexivity|].
    unfold subscribeToGraphQL. cbn. destruct (returned _); reflexivity.
  - left. unfold onClientUnsubscribed. cbn.
    destruct (_ !! _) as [regs|]; [|reflexivity].
    destruct (find_registration t regs) as [[i reg]|]; reflexivity.
  - left. reflexivity.
  - left. reflexivity.
  - destruct (next_published l s) as [H|(lp & it & e & rest & H)]; [by left|].
    right. exists l, lp, it, e, rest. intuition.
Qed.
Lemma subscribed_unknown topic clientId s :
  no_registration topic clientId s ->
  only_logged Level_error s (onClientSubscribed topic clientId s).
Proof.
  unfold no_registration, only_logged, onClientSubscribed. cbn.
  destruct (registrations s !! clientId) as [regs|]; intros H.
  - apply find_registration_None in H. rewrite H. eauto.
  - eauto.
Qed.

Lemma unsubscribed_unknown topic clientId s :
  no_registration topic clientId s ->
  only_logged Level_warn s (onClientUnsubscribed topic clientId s).
Proof.
  unfold no_registration, only_logged, onClientUnsubscribed. cbn.
  destruct (registrations s !! clientId) as [regs|]; intros H.
  - apply find_registration_None in H. rewrite H. eauto.
  - eauto.
Qed.

Lemma only_logged_same_state lvl s s' :
  only_logged lvl s s' -> same_state s s' /\ length (console s') = S (S (length (console s))).
Proof.
  intros (opening & line & ->). split; [repeat split|].
  cbn. rewrite !length_app. cbn. lia.
Qed.

(** C9: a subscribed or unsubscribed event for a client with no
    registrations, or for a topic none of its registrations carries, makes
    the handler print its opening line and one error (warning) line and
    return: registrations, timeout table, streams, timers, loops and
    publications are as before, and no path of the handler throws. *)
Theorem unknown_registration_is_ignored topic clientId s :
  no_registration topic clientId s ->
  (only_logged Level_error s (onClientSubscribed topic clientId s) /\
   same_state s (onClientSubscribed topic clientId s)) /\
  (only_logged Level_warn s (onClientUnsubscribed topic clientId s) /\
   same_state s (onClientUnsubscribed topic clientId s)).
Proof.
  intros H. split.
  - pose proof (subscribed_unknown _ _ _ H) as Hl. split; [exact Hl|].
    by apply only_logged_same_state in Hl as [? _].
  - pose proof (unsubscribed_unknown _ _ _ H) as Hl. split; [exact Hl|].
    by apply only_logged_same_state in Hl as [? _].
Qed.

(** C2, as stated, fails: the engine refuses with its errors, a resolver
    has set [context.appsyncErrors], and register returns the latter, not
    the errors of the engine. *)
Lemma resolver_errors_replace_engine_errors :
  returned (schema resolver_error_server JNull no_variables alice) =
    ExecutionResult 7 [JString "Unknown field"] JUndefined /\
  (register JNull no_variables alice "t1" resolver_error_server).1 =
    Refused (JArray 8 [JString "Unauthorized"]) JNull /\
  (register JNull no_variables alice "t1" resolver_error_server).1 <>
    Refused (JArray 7 [JString "Unknown field"]) JNull.
Proof. split; [reflexivity|]. split; [reflexivity|]. discriminate. Qed.

(** C2 (as amended): when the engine answers the stream-creation attempt
    of register with errors, register resolves to [{ errors, data }],
    never to a handshake: [errors] is [context.appsyncErrors] when a
    resolver has left a truthy value there, and the errors of the engine
    otherwise.  Nothing but the console has changed: no registration is
    added, no timeout is set. *)
Theorem register_refused documentAST variables context uuid s addr errors data :
  returned (schema s documentAST variables context) = ExecutionResult addr errors data ->
  (register documentAST variables context uuid s).1 =
    Refused (js_or (appsyncErrors (schema s documentAST variables context)) (JArray addr errors))
      (js_or data JNull) /\
  (truthy (appsyncErrors (schema s documentAST variables context)) = true ->
   (register documentAST variables context uuid s).1 =
     Refused (appsyncErrors (schema s documentAST variables context)) (js_or data JNull)) /\
  (truthy (appsyncErrors (schema s documentAST variables context)) = false ->
   (register documentAST variables context uuid s).1 =
     Refused (JArray addr errors) (js_or data JNull)) /\
  same_state s (register documentAST variables context uuid s).2 /\
  (no_registration uuid (sub context) s ->
   no_registration uuid (sub context) (register documentAST variables context uuid s).2).
Proof.
  intros H.
  assert (Hr : (register documentAST variables context uuid s).1 =
    Refused (js_or (appsyncErrors (schema s documentAST variables context)) (JArray addr errors))
      (js_or data JNull)).
  { unfold register, subscribeToGraphQL. cbn. rewrite H. reflexivity. }
  split; [exact Hr|]. rewrite Hr.
  split; [intros Ht; unfold js_or at 1; by rewrite Ht|].
  split; [intros Ht; unfold js_or at 1; by rewrite Ht|].
  unfold register, subscribeToGraphQL. cbn. rewrite H. cbn.
  split; [repeat split|done].
Qed.

Lemma step_schema ev s : schema (step ev s) = schema s /\ mqttURL (step ev s) = mqttURL s.
Proof.
  destruct ev as [d v c u|c|c|t c|t c|dt|i e|l]; cbn [step].
  - unfold register. destruct (returned _); split; reflexivity.
  - unfold onClientConnect. cbn. destruct (_ !! _); split; reflexivity.
  - unfold onClientDisconnect. cbn. destruct (_ !! _); split; reflexivity.
  - unfold onClientSubscribed. cbn.
    destruct (_ !! _) as [regs|]; [|split; reflexivity].
    destruct (find_registration t regs) as [[i reg]|]; [|split; reflexivity].
    destruct (isRegistered reg); cbn; [split; reflexivity|].
    unfold subscribeToGraphQL. cbn. destruct (returned _); split; reflexivity.
  - unfold onClientUnsubscribed. cbn.
    destruct (_ !! _) as [regs|]; [|split; reflexivity].
    destruct (find_registration t regs) as [[i reg]|]; split; reflexivity.
  - split; reflexivity.
  - split; reflexivity.
  - unfold next.
    destruct (loops s !! l) as [lp|]; [|split; reflexivity].
    destruct (loop_status_of lp); try (split; reflexivity).
    destruct (iterators s !! loop_asyncIterator lp) as [it|]; [|split; reflexivity].
    destruct (done it); [split; reflexivity|].
    destruct (queue it) as [|e rest]; [split; reflexivity|].
    destruct (shouldPublishSubscription e (loop_variables lp)) as [[|]|]; split; reflexivity.
Qed.

Lemma run_schema evs s : schema (run evs s) = schema s /\ mqttURL (run evs s) = mqttURL s.
Proof.
  revert s. induction evs as [|ev evs IH]; intros s; [split; reflexivity|].
  cbn [run foldl]. fold (run evs (step ev s)).
  destruct (IH (step ev s)) as [-> ->]. apply step_schema.
Qed.

Lemma run_app evs evs' s : run (evs ++ evs') s = run evs' (run evs s).
Proof. unfold run. apply foldl_app. Qed.

Lemma run_cons ev evs s : run (ev :: evs) s = run evs (step ev s).
Proof. reflexivity. Qed.

(** Rewriting a registration in place keeps the topic ids of the array. *)
Lemma topic_ids_store regs i reg reg' :
  regs !! i = Some reg -> topicId reg' = topicId reg ->
  topic_ids (<[i := reg']> regs) = topic_ids regs.
Proof.
  intros Hi Ht. unfold topic_ids. rewrite list_fmap_insert, Ht.
  apply list_insert_id. rewrite list_lookup_fmap, Hi. reflexivity.
Qed.

Lemma registrations_of_store c c' i reg reg' regs s :
  registrations s !! c' = Some regs -> regs !! i = Some reg -> topicId reg' = topicId reg ->
  topic_ids (default [] (alter (fun regs => <[i := reg']> regs) c' (registrations s) !! c)) =
  topic_ids (default [] (registrations s !! c)).
Proof.
  intros Hc Hi Ht. destruct (decide (c' = c)) as [->|Hne].
  - rewrite lookup_alter_eq, Hc. cbn. by eapply topic_ids_store.
  - by rewrite lookup_alter_ne.
Qed.

Lemma step_topics c ev s :
  topic_ids (registrations_of c (step ev s)) =
  topic_ids (registrations_of c s) ++ registered_by (schema s) c [ev].
Proof.
  unfold registrations_of.
  destruct ev as [d v cx u|c'|c'|t c'|t c'|dt|i e|l]; cbn [step registered_by omap];
    rewrite ?app_nil_r.
  - unfold register, subscribeToGraphQL. cbn.
    destruct (returned (schema s d v cx)); cbn; [|by rewrite app_nil_r].
    destruct (decide (sub cx = c)) as [->|Hne]; cbn.
    + rewrite lookup_insert_eq. cbn. unfold topic_ids. rewrite fmap_app. reflexivity.
    + rewrite lookup_insert_ne by done. by rewrite app_nil_r.
  - unfold onClientConnect. cbn. destruct (iteratorTimeout s !! c'); reflexivity.
  - unfold onClientDisconnect. cbn. destruct (registrations s !! c'); reflexivity.
  - unfold onClientSubscribed. cbn.
    destruct (registrations s !! c') as [regs|] eqn:Hc; [|reflexivity].
    destruct (find_registration t regs) as [[i reg]|] eqn:Hf; [|reflexivity].
    apply find_registration_Some in Hf as [Hi _].
    destruct (isRegistered reg); cbn; [reflexivity|].
    unfold subscribeToGraphQL. cbn. destruct (returned _); cbn; [|reflexivity].
    by eapply registrations_of_store.
  - unfold onClientUnsubscribed. cbn.
    destruct (registrations s !! c') as [regs|] eqn:Hc; [|reflexivity].
    destruct (find_registration t regs) as [[i reg]|] eqn:Hf; [|reflexivity].
    apply find_registration_Some in Hf as [Hi _]. cbn.
    by eapply registrations_of_store.
  - reflexivity.
  - reflexivity.
  - unfold next.
    destruct (loops s !! l) as [lp|]; [|reflexivity].
    destruct (loop_status_of lp); try reflexivity.
    destruct (iterators s !! loop_asyncIterator lp) as [it|]; [|reflexivity].
    destruct (done it); [reflexivity|].
    destruct (queue it) as [|e rest]; [reflexivity|].
    destruct (shouldPublishSubscription e (loop_variables lp)) as [[|]|]; reflexivity.
Qed.

Lemma registered_by_cons sch c ev evs :
  registered_by sch c (ev :: evs) = registered_by sch c [ev] ++ registered_by sch c evs.
Proof. unfold registered_by. cbn. destruct (match ev with Request _ _ _ _ => _ | _ => None end); reflexivity. Qed.

(** The topic ids of a client are those of its accepted requests, in the
    order the requests came. *)
Lemma run_topics c evs s :
  topic_ids (registrations_of c (run evs s)) =
  topic_ids (registrations_of c s) ++ registered_by (schema s) c evs.
Proof.
  revert s. induction evs as [|ev evs IH]; intros s.
  - cbn. by rewrite app_nil_r.
  - rewrite run_cons, IH, step_topics, (registered_by_cons _ _ ev evs), <- app_assoc.
    by destruct (step_schema ev s) as [-> _].
Qed.

Lemma register_accepted documentAST variables context uuid s :
  returned (schema s documentAST variables context) = Iterator ->
  (register documentAST variables context uuid s).1 =
    Handshake
      [MqttConnection (mqttURL s) (topic_ids (registrations_of (sub context) s) ++ [uuid])
         (sub context)]
      [(uuid, NewSubscription uuid (now s + TopicExpires))] /\
  registrations (register documentAST variables context uuid s).2 =
    <[sub context :=
        registrations_of (sub context) s ++
        [Registration context documentAST variables uuid (length (iterators s)) true]]>
      (registrations s) /\
  iterators (register documentAST variables context uuid s).2 =
    iterators s ++ [fresh_iterator] /\
  timers (register documentAST variables context uuid s).2 =
    timers s ++ [Timer (now s + ConnectTimeout) (length (iterators s)) Armed] /\
  iteratorTimeout (register documentAST variables context uuid s).2 =
    <[sub context := length (timers s)]> (iteratorTimeout s) /\
  loops (register documentAST variables context uuid s).2 = loops s /\
  published (register documentAST variables context uuid s).2 = published s /\
  now (register documentAST variables context uuid s).2 = now s.
Proof.
  intros H. unfold register, subscribeToGraphQL. cbn. rewrite H. cbn.
  unfold registrations_of, topic_ids. rewrite fmap_app. repeat split.
Qed.

(** C8: on a server that started empty and went through [evs], an
    accepted register call resolves to the handshake: the broker url, the
    topic ids of this client's accepted requests in the order they came
    followed by the new one, and the new topic with
    [expireTime = now + TopicExpires]; TopicExpires is 100 minutes, and
    the timeout set on the new stream is due after ConnectTimeout, which
    is 2 minutes. *)
Theorem handshake_of_register sch url t0 evs documentAST variables context uuid :
  returned (sch documentAST variables context) = Iterator ->
  (register documentAST variables context uuid (run evs (new_server sch url t0))).1 =
    Handshake
      [MqttConnection url (registered_by sch (sub context) evs ++ [uuid]) (sub context)]
      [(uuid, NewSubscription uuid (now (run evs (new_server sch url t0)) + TopicExpires))] /\
  TopicExpires = 100 * (60 * 1000) /\
  ConnectTimeout = 2 * (60 * 1000) /\
  timers (register documentAST variables context uuid (run evs (new_server sch url t0))).2 =
    timers (run evs (new_server sch url t0)) ++
    [Timer (now (run evs (new_server sch url t0)) + ConnectTimeout)
       (length (iterators (run evs (new_server sch url t0)))) Armed].
Proof.
  intros H. set (s := run evs (new_server sch url t0)).
  destruct (run_schema evs (new_server sch url t0)) as [Hs Hu]. cbn in Hs, Hu. fold s in Hs, Hu.
  assert (Ha : returned (schema s documentAST variables context) = Iterator) by by rewrite Hs.
  destruct (register_accepted _ _ _ uuid _ Ha) as (Hr & _ & _ & Ht & _).
  rewrite Hr, Ht, Hu. unfold s at 1. rewrite run_topics. cbn.
  repeat split.
Qed.
(* ===================================================================== *)
(** ** Servers that started empty are well formed *)
(* ===================================================================== *)

Lemma elem_of_insert_inv {A} (l : list A) i x y :
  x ∈ <[i := y]> l -> x = y \/ x ∈ l.
Proof.
  intros (j & Hj)%list_elem_of_lookup.
  apply list_lookup_insert_Some in Hj as [(-> & -> & _)|(_ & Hj)]; [by left|].
  right. apply list_elem_of_lookup. eauto.
Qed.

Lemma length_return_all targets its : length (return_all targets its) = length its.
Proof.
  unfold return_all. induction targets as [|i targets IH]; [reflexivity|].
  cbn [foldr]. by rewrite length_alter.
Qed.

Lemma wf_log lvl line s : well_formed s -> well_formed (log lvl line s).
Proof. intros [H1 H2 H3 H4]. by constructor. Qed.

Lemma wf_new_server sch url t0 : well_formed (new_server sch url t0).
Proof. constructor; cbn; intros *; by rewrite ?lookup_empty. Qed.

Lemma wf_register documentAST variables context uuid s :
  well_formed s -> well_formed (register documentAST variables context uuid s).2.
Proof.
  intros [H1 H2 H3 H4]. unfold register, subscribeToGraphQL. cbn.
  destruct (returned (schema s documentAST variables context)) eqn:Hr; cbn; [|by constructor].
  constructor; cbn; rewrite ?length_app; cbn.
  - intros c regs reg Hc Hin.
    apply lookup_insert_Some in Hc as [[<- <-]|[_ Hc]]; [|by eauto].
    apply elem_of_app in Hin as [Hin|Hin%list_elem_of_singleton]; [|by subst reg].
    destruct (registrations s !! sub context) eqn:Hc; cbn in Hin; [by eauto|].
    by apply elem_of_nil in Hin.
  - intros c regs reg Hc Hin.
    apply lookup_insert_Some in Hc as [[<- <-]|[_ Hc]].
    + apply elem_of_app in Hin as [Hin|Hin%list_elem_of_singleton]; [|subst reg; cbn; lia].
      destruct (registrations s !! sub context) eqn:Hc; cbn in Hin.
      * specialize (H2 _ _ _ Hc Hin). lia.
      * by apply elem_of_nil in Hin.
    + specialize (H2 _ _ _ Hc Hin). lia.
  - intros c h Hc.
    apply lookup_insert_Some in Hc as [[_ <-]|[_ Hc]]; [lia|].
    specialize (H3 _ _ Hc). lia.
  - intros h tm Hh.
    apply lookup_app_Some in Hh as [Hh|[_ Hh]].
    + specialize (H4 _ _ Hh). lia.
    + apply list_lookup_singleton_Some in Hh as [_ <-]. cbn. lia.
Qed.

Lemma lookup_alter_timer f h h' (tms : list timer) tm' :
  (forall tm, target (f tm) = target tm) ->
  alter f h tms !! h' = Some tm' ->
  exists tm, tms !! h' = Some tm /\ target tm' = target tm.
Proof.
  intros Hf Hl. destruct (decide (h = h')) as [->|Hne].
  - rewrite list_lookup_alter_eq in Hl.
    destruct (tms !! h') as [tm|]; [|done]. injection Hl as <-. eauto.
  - rewrite list_lookup_alter_ne in Hl by done. eauto.
Qed.

Lemma target_clear tm : target (clear tm) = target tm.
Proof. unfold clear. by destruct (is_armed tm). Qed.

Lemma target_expire t tm : target (expire t tm) = target tm.
Proof. unfold expire. by destruct (due t tm). Qed.

Lemma wf_onClientConnect clientId s :
  well_formed s -> well_formed (onClientConnect clientId s).
Proof.
  intros [H1 H2 H3 H4]. unfold onClientConnect. cbn.
  destruct (iteratorTimeout s !! clientId) as [h|]; [|by constructor].
  constructor; cbn; rewrite ?length_alter; try done.
  intros h' tm' Hl. apply lookup_alter_timer in Hl as (tm & Hl & ->); [by eauto|].
  apply target_clear.
Qed.

Lemma wf_onClientDisconnect clientId s :
  well_formed s -> well_formed (onClientDisconnect clientId s).
Proof.
  intros H. unfold onClientDisconnect. cbn.
  destruct (registrations s !! clientId); by repeat apply wf_log.
Qed.

(** Writing back a registration made from the same request, whose
    iterator exists, keeps the server well formed. *)
Lemma wf_store clientId i reg reg' regs s its :
  well_formed s ->
  registrations s !! clientId = Some regs -> regs !! i = Some reg ->
  documentAST reg' = documentAST reg -> variables reg' = variables reg ->
  context reg' = context reg ->
  (length (iterators s) <= length its)%nat ->
  (asyncIterator reg' < length its)%nat ->
  well_formed (store clientId i reg' (set_iterators (fun _ => its) s)).
Proof.
  intros [H1 H2 H3 H4] Hc Hi Hd Hv Hx Hlen Hit.
  assert (Hreg : reg ∈ regs) by (apply list_elem_of_lookup; eauto).
  constructor; cbn.
  - intros c regs' r Hc' Hin.
    apply lookup_alter_Some in Hc' as [(<- & regs0 & Hc0 & ->)|[_ Hc']]; [|by eauto].
    assert (regs0 = regs) as -> by congruence.
    apply elem_of_insert_inv in Hin as [->|Hin]; [|by eauto].
    unfold accepted. rewrite Hd, Hv, Hx. by eapply H1.
  - intros c regs' r Hc' Hin.
    apply lookup_alter_Some in Hc' as [(<- & regs0 & Hc0 & ->)|[_ Hc']].
    + assert (regs0 = regs) as -> by congruence.
      apply elem_of_insert_inv in Hin as [->|Hin]; [done|].
      specialize (H2 _ _ _ Hc Hin). lia.
    + specialize (H2 _ _ _ Hc' Hin). lia.
  - done.
  - intros h tm Hh. specialize (H4 _ _ Hh). lia.
Qed.

Lemma wf_set_loops f s : well_formed s -> well_formed (set_loops f s).
Proof. intros [H1 H2 H3 H4]. by constructor. Qed.

Lemma wf_onClientSubscribed topic clientId s :
  well_formed s -> well_formed (onClientSubscribed topic clientId s).
Proof.
  intros H. unfold onClientSubscribed. cbn.
  destruct (registrations s !! clientId) as [regs|] eqn:Hc; [|by repeat apply wf_log].
  destruct (find_registration topic regs) as [[i reg]|] eqn:Hf; [|by repeat apply wf_log].
  apply find_registration_Some in Hf as [Hi _].
  destruct (isRegistered reg); cbn.
  - unfold start_loop. apply wf_set_loops. by apply wf_log.
  - unfold subscribeToGraphQL. cbn. destruct (returned _); [|by repeat apply wf_log].
    unfold start_loop. apply wf_set_loops.
    apply (wf_store clientId i reg _ regs (log Level_info ["client subscribed to"; clientId; topic] s)
             (iterators s ++ [fresh_iterator])); try done.
    + by apply wf_log.
    + cbn. rewrite length_app. lia.
    + cbn. rewrite length_app. cbn. lia.
Qed.

Lemma wf_onClientUnsubscribed topic clientId s :
  well_formed s -> well_formed (onClientUnsubscribed topic clientId s).
Proof.
  intros H. unfold onClientUnsubscribed. cbn.
  destruct (registrations s !! clientId) as [regs|] eqn:Hc; [|by repeat apply wf_log].
  destruct (find_registration topic regs) as [[i reg]|] eqn:Hf; [|by repeat apply wf_log].
  apply find_registration_Some in Hf as [Hi _].
  assert (Hreg : reg ∈ regs) by (apply list_elem_of_lookup; eauto).
  apply (wf_store clientId i reg _ regs (log Level_info ["Client unsubscribed to"; clientId; topic] s)
           (alter close (asyncIterator reg) (iterators s))); try done.
  - by apply wf_log.
  - cbn. by rewrite length_alter.
  - cbn. rewrite length_alter. by eapply (wf_iterator s H).
Qed.

Lemma wf_tick dt s : well_formed s -> well_formed (tick dt s).
Proof.
  intros [H1 H2 H3 H4]. unfold tick.
  constructor; cbn; rewrite ?length_return_all, ?length_fmap; try done.
  intros h tm' Hh. rewrite list_lookup_fmap in Hh.
  destruct (timers s !! h) as [tm|] eqn:Htm; [|done]. injection Hh as <-.
  rewrite target_expire. by eauto.
Qed.

Lemma wf_emit i e s : well_formed s -> well_formed (emit i e s).
Proof.
  intros [H1 H2 H3 H4]. unfold emit.
  constructor; cbn; rewrite ?length_alter; done.
Qed.

Lemma wf_next l s : well_formed s -> well_formed (next l s).
Proof.
  intros H. unfold next.
  destruct (loops s !! l) as [lp|]; [|done].
  destruct (loop_status_of lp); try done.
  destruct (iterators s !! loop_asyncIterator lp) as [it|]; [|done].
  destruct (done it); [by apply wf_set_loops|].
  destruct (queue it) as [|e rest]; [done|].
  assert (Hw : well_formed
    (set_iterators (fun its => <[loop_asyncIterator lp := AsyncIterator rest false]> its) s)).
  { destruct H as [H1 H2 H3 H4].
    constructor; cbn; rewrite ?length_insert; done. }
  destruct (shouldPublishSubscription e (loop_variables lp)) as [[|]|].
  - destruct Hw as [H1 H2 H3 H4]. by constructor.
  - by apply wf_log.
  - by apply wf_set_loops.
Qed.

Lemma wf_step ev s : well_formed s -> well_formed (step ev s).
Proof.
  destruct ev; cbn [step];
    auto using wf_register, wf_onClientConnect, wf_onClientDisconnect,
      wf_onClientSubscribed, wf_onClientUnsubscribed, wf_tick, wf_emit, wf_next.
Qed.

Lemma wf_run evs s : well_formed s -> well_formed (run evs s).
Proof.
  revert s. induction evs as [|ev evs IH]; intros s H; [done|].
  rewrite run_cons. by apply IH, wf_step.
Qed.

Lemma reachable_well_formed s : reachable s -> well_formed s.
Proof. intros (sch & url & t0 & evs & ->). apply wf_run, wf_new_server. Qed.

(* ===================================================================== *)
(** ** Subscribed and unsubscribed on a known registration *)
(* ===================================================================== *)


(** Subscribed on a registration whose [isRegistered] is set: the engine
    is not asked, and a loop over the iterator it holds is entered. *)
Lemma subscribed_registered topic clientId s regs i reg :
  registrations s !! clientId = Some regs ->
  find_registration topic regs = Some (i, reg) ->
  isRegistered reg = true ->
  onClientSubscribed topic clientId s =
    start_loop clientId reg (log Level_info ["client subscribed to"; clientId; topic] s).
Proof.
  intros Hc Hf Hr. unfold onClientSubscribed. cbn. rewrite Hc, Hf, Hr. reflexivity.
Qed.




(** A loop whose stream has an event for it takes it, and publishes it if
    the filter lets it through. *)
Lemma next_takes l s lp e rest :
  loops s !! l = Some lp -> loop_status_of lp = Running ->
  iterators s !! loop_asyncIterator lp = Some (AsyncIterator (e :: rest) false) ->
  shouldPublishSubscription e (loop_variables lp) = Ok true ->
  loops (next l s) = loops s /\
  iterators (next l s) = <[loop_asyncIterator lp := AsyncIterator rest false]> (iterators s) /\
  published (next l s) = published s ++ [Publication (loop_topicId lp) e 0 false].
Proof.
  intros Hl Hst Hit Hf. unfold next. rewrite Hl, Hst, Hit. cbn. rewrite Hf. repeat split.
Qed.

(** A loop whose stream is open and has nothing queued waits. *)
Lemma next_waits l s lp :
  loops s !! l = Some lp ->
  iterators s !! loop_asyncIterator lp = Some fresh_iterator ->
  next l s = s.
Proof.
  intros Hl Hit. unfold next. rewrite Hl, Hit. cbn. by destruct (loop_status_of lp).
Qed.

(** Two loops over one stream: the event goes to the loop that takes its
    turn first, and is published once. *)
Lemma shared_stream_publishes_once s i l1 l2 lp1 lp2 e :
  loops s !! l1 = Some lp1 -> loops s !! l2 = Some lp2 ->
  loop_status_of lp1 = Running ->
  loop_asyncIterator lp1 = i -> loop_asyncIterator lp2 = i ->
  iterators s !! i = Some fresh_iterator ->
  shouldPublishSubscription e (loop_variables lp1) = Ok true ->
  published (run [Produce i e; Next l1; Next l2] s) =
    published s ++ [Publication (loop_topicId lp1) e 0 false].
Proof.
  intros Hl1 Hl2 Hst H1 H2 Hi Hf. cbn [run foldl step].
  assert (Hit : iterators (emit i e s) !! loop_asyncIterator lp1
                = Some (AsyncIterator [e] false)).
  { unfold emit. cbn. by rewrite H1, list_lookup_alter_eq, Hi. }
  destruct (next_takes l1 (emit i e s) lp1 e [] Hl1 Hst Hit Hf) as (Hlo & Hits & Hpub).
  rewrite (next_waits l2 _ lp2).
  - exact Hpub.
  - by rewrite Hlo.
  - rewrite Hits, H1, H2. apply list_lookup_insert_eq.
    unfold emit. cbn. rewrite length_alter. by eapply lookup_lt_Some.
Qed.

(** C1 (as amended): a subscribed event on a registration whose
    [isRegistered] is set (as [register] leaves it) does not ask the engine
    for a stream and leaves the registrations, the timers and the streams
    as they are, but it enters one more loop over the iterator the
    registration holds.  The loops share the stream: with an earlier loop
    [l] of the registration still running, an event produced on the stream
    is published once, whichever of the two loops takes its turn first. *)
Theorem subscribed_again_adds_a_loop topic clientId s regs i reg :
  registrations s !! clientId = Some regs ->
  find_registration topic regs = Some (i, reg) ->
  isRegistered reg = true ->
  same_stores s (onClientSubscribed topic clientId s) /\
  loops (onClientSubscribed topic clientId s) =
    loops s ++ [Loop clientId (asyncIterator reg) topic (variables reg) Running] /\
  forall l e,
    loops s !! l = Some (Loop clientId (asyncIterator reg) topic (variables reg) Running) ->
    iterators s !! asyncIterator reg = Some fresh_iterator ->
    shouldPublishSubscription e (variables reg) = Ok true ->
    published (run [Produce (asyncIterator reg) e; Next l; Next (length (loops s))]
                 (onClientSubscribed topic clientId s)) =
      published s ++ [Publication topic e 0 false] /\
    published (run [Produce (asyncIterator reg) e; Next (length (loops s)); Next l]
                 (onClientSubscribed topic clientId s)) =
      published s ++ [Publication topic e 0 false].
Proof.
  intros Hc Hf Hr. rewrite (subscribed_registered _ _ _ _ _ _ Hc Hf Hr).
  apply find_registration_Some in Hf as [_ <-].
  split; [repeat split|]. split; [reflexivity|].
  intros l e Hl Hit He.
  set (lp := Loop clientId (asyncIterator reg) (topicId reg) (variables reg) Running) in *.
  set (s' := start_loop clientId reg
               (log Level_info ["client subscribed to"; clientId; topicId reg] s)).
  assert (Hl1 : loops s' !! l = Some lp).
  { unfold s'. cbn. apply lookup_app_l_Some. exact Hl. }
  assert (Hl2 : loops s' !! length (loops s) = Some lp).
  { unfold s'. cbn. rewrite lookup_app_r by lia. by rewrite Nat.sub_diag. }
  split.
  - by apply (shared_stream_publishes_once s' (asyncIterator reg) l (length (loops s)) lp lp e).
  - by apply (shared_stream_publishes_once s' (asyncIterator reg) (length (loops s)) l lp lp e).
Qed.

(* ===================================================================== *)
(** ** The connect timeout *)
(* ===================================================================== *)

Lemma return_all_closed targets its i :
  its !! i = Some closed -> return_all targets its !! i = Some closed.
Proof.
  intros Hi. unfold return_all. induction targets as [|j targets IH]; [done|].
  cbn [foldr]. destruct (decide (j = i)) as [->|Hne].
  - by rewrite list_lookup_alter_eq, IH.
  - by rewrite list_lookup_alter_ne.
Qed.

Lemma return_all_target targets its i :
  i ∈ targets -> (i < length its)%nat -> return_all targets its !! i = Some closed.
Proof.
  intros Hin Hlt. unfold return_all. induction targets as [|j targets IH].
  - by apply elem_of_nil in Hin.
  - cbn [foldr]. destruct (decide (j = i)) as [->|Hne].
    + rewrite list_lookup_alter_eq.
      destruct (lookup_lt_is_Some_2 (foldr (alter close) its targets) i) as [it ->]; [|done].
      fold (return_all targets its). by rewrite length_return_all.
    + rewrite list_lookup_alter_ne by done. apply IH.
      apply elem_of_cons in Hin as [->|Hin]; done.
Qed.

(** A stream that has been returned stays so, whatever happens. *)
Lemma closed_step ev s i :
  iterators s !! i = Some closed -> iterators (step ev s) !! i = Some closed.
Proof.
  intros Hi. pose proof (lookup_lt_Some _ _ _ Hi) as Hlt.
  destruct ev as [d v cx u|c|c|t c|t c|dt|j e|l]; cbn [step].
  - unfold register. cbn. destruct (returned _); cbn; [|done].
    by rewrite lookup_app_l.
  - unfold onClientConnect. cbn. by destruct (iteratorTimeout s !! c).
  - unfold onClientDisconnect. cbn. by destruct (registrations s !! c).
  - unfold onClientSubscribed. cbn.
    destruct (registrations s !! c) as [regs|]; [|done].
    destruct (find_registration t regs) as [[k reg]|]; [|done].
    destruct (isRegistered reg); cbn; [done|].
    unfold subscribeToGraphQL. cbn. destruct (returned _); cbn; [|done].
    by rewrite lookup_app_l.
  - unfold onClientUnsubscribed. cbn.
    destruct (registrations s !! c) as [regs|]; [|done].
    destruct (find_registration t regs) as [[k reg]|]; [|done]. cbn.
    destruct (decide (asyncIterator reg = i)) as [->|Hne].
    + by rewrite list_lookup_alter_eq, Hi.
    + by rewrite list_lookup_alter_ne.
  - cbn. by apply return_all_closed.
  - cbn. destruct (decide (j = i)) as [->|Hne].
    + by rewrite list_lookup_alter_eq, Hi.
    + by rewrite list_lookup_alter_ne.
  - unfold next.
    destruct (loops s !! l) as [lp|]; [|done].
    destruct (loop_status_of lp); try done.
    destruct (iterators s !! loop_asyncIterator lp) as [it|] eqn:Hit; [|done].
    destruct (done it) eqn:Hd; [done|].
    destruct (queue it) as [|e rest]; [done|].
    assert (loop_asyncIterator lp <> i) as Hne.
    { intros Heq. rewrite Heq, Hi in Hit. injection Hit as <-. done. }
    destruct (shouldPublishSubscription e (loop_variables lp)) as [[|]|]; cbn;
      by rewrite list_lookup_insert_ne.
Qed.



Lemma step_now ev s : now (step ev s) = now s + elapsed [ev].
Proof.
  destruct ev as [d v cx u|c|c|t c|t c|dt|j e|l]; cbn [step elapsed foldr];
    rewrite ?Z.add_0_r.
  - unfold register. cbn. by destruct (returned _).
  - unfold onClientConnect. cbn. by destruct (iteratorTimeout s !! c).
  - unfold onClientDisconnect. cbn. by destruct (registrations s !! c).
  - unfold onClientSubscribed. cbn.
    destruct (registrations s !! c) as [regs|]; [|done].
    destruct (find_registration t regs) as [[k reg]|]; [|done].
    destruct (isRegistered reg); cbn; [done|].
    unfold subscribeToGraphQL. cbn. by destruct (returned _).
  - unfold onClientUnsubscribed. cbn.
    destruct (registrations s !! c) as [regs|]; [|done].
    by destruct (find_registration t regs) as [[k reg]|].
  - reflexivity.
  - reflexivity.
  - unfold next.
    destruct (loops s !! l) as [lp|]; [|done].
    destruct (loop_status_of lp); try done.
    destruct (iterators s !! loop_asyncIterator lp) as [it|]; [|done].
    destruct (done it); [done|].
    destruct (queue it) as [|e rest]; [done|].
    by destruct (shouldPublishSubscription e (loop_variables lp)) as [[|]|].
Qed.

Lemma elapsed_cons ev evs : elapsed (ev :: evs) = elapsed [ev] + elapsed evs.
Proof. unfold elapsed. cbn. destruct ev; lia. Qed.

Lemma step_iterators_length ev s :
  (length (iterators s) <= length (iterators (step ev s)))%nat.
Proof.
  destruct ev as [d v cx u|c|c|t c|t c|dt|j e|l]; cbn [step].
  - unfold register. cbn. destruct (returned _); cbn; rewrite ?length_app; lia.
  - unfold onClientConnect. cbn. by destruct (iteratorTimeout s !! c).
  - unfold onClientDisconnect. cbn. by destruct (registrations s !! c).
  - unfold onClientSubscribed, subscribeToGraphQL. cbn.
    handler_cases; cbn; rewrite ?length_app; lia.
  - unfold onClientUnsubscribed. cbn.
    handler_cases; cbn; rewrite ?length_alter; lia.
  - cbn. by rewrite length_return_all.
  - cbn. by rewrite length_alter.
  - unfold next. handler_cases; cbn; rewrite ?length_insert; lia.
Qed.

Lemma step_timers_length ev s :
  (length (timers s) <= length (timers (step ev s)))%nat.
Proof.
  destruct ev as [d v cx u|c|c|t c|t c|dt|j e|l]; cbn [step].
  - unfold register. cbn. destruct (returned _); cbn; rewrite ?length_app; lia.
  - unfold onClientConnect. cbn.
    destruct (iteratorTimeout s !! c); cbn; rewrite ?length_alter; lia.
  - unfold onClientDisconnect. cbn. by destruct (registrations s !! c).
  - unfold onClientSubscribed, subscribeToGraphQL. cbn. handler_cases; cbn; lia.
  - unfold onClientUnsubscribed. cbn. handler_cases; cbn; lia.
  - cbn. by rewrite length_fmap.
  - cbn. lia.
  - unfold next. handler_cases; cbn; lia.
Qed.

(** Only the connect of its client can clear a pending timeout; once the
    clock reaches its time, the stream is returned. *)
Lemma pending_timeout_step clientId h i D ev s :
  pending_timeout clientId h i D s ->
  ~ is_connect_of clientId ev ->
  pending_timeout clientId h i D (step ev s).
Proof.
  intros [Hwf Hown Hh Hi Ht] Hev.
  assert (Hgoal :
    (forall c, iteratorTimeout (step ev s) !! c = Some h -> c = clientId) /\
    ((timers s !! h = Some (Timer D i Armed) /\ now s < D) ->
     (timers (step ev s) !! h = Some (Timer D i Armed) /\ now (step ev s) < D) \/
     iterators (step ev s) !! i = Some closed)).
  { destruct ev as [d v cx u|c|c|t c|t c|dt|j e|l]; cbn [step].
    - unfold register. cbn. destruct (returned _); cbn; [|by eauto].
      split.
      + intros c Hc. apply lookup_insert_Some in Hc as [[_ Hc]|[_ Hc]]; [lia|by eauto].
      + intros [Htm Hnow]. left. by rewrite lookup_app_l.
    - unfold onClientConnect. cbn.
      destruct (iteratorTimeout s !! c) as [h'|] eqn:Hc; cbn; [|by eauto].
      split; [done|]. intros [Htm Hnow]. left.
      rewrite list_lookup_alter_ne; [done|].
      intros ->. apply Hev. cbn. by apply Hown.
    - unfold onClientDisconnect. cbn. destruct (registrations s !! c); by eauto.
    - unfold onClientSubscribed, subscribeToGraphQL. cbn.
      handler_cases; cbn; by eauto.
    - unfold onClientUnsubscribed. cbn. handler_cases; cbn; by eauto.
    - cbn. split; [done|]. intros [Htm Hnow].
      destruct (decide (D <= now s + Z.max 0 dt)) as [Hdue|Hnot].
      + right. apply return_all_target; [|done].
        unfold due_targets. apply list_elem_of_fmap. exists (Timer D i Armed).
        split; [done|]. apply list_elem_of_filter. split.
        * unfold due. cbn. by apply Z.leb_le.
        * apply list_elem_of_lookup. eauto.
      + left. split; [|lia]. rewrite list_lookup_fmap, Htm. cbn.
        unfold expire, due. cbn.
        destruct (Z.leb_spec D (now s + Z.max 0 dt)); [lia|done].
    - cbn. by eauto.
    - unfold next. handler_cases; cbn; by eauto. }
  destruct Hgoal as [Hown' Ht'].
  constructor.
  - by apply wf_step.
  - exact Hown'.
  - pose proof (step_timers_length ev s). lia.
  - pose proof (step_iterators_length ev s). lia.
  - destruct Ht as [Ht|Hc]; [by apply Ht'|]. right. by apply closed_step.
Qed.


(** [register] leaves its timeout pending. *)
Lemma register_pending_timeout documentAST variables context uuid s :
  well_formed s ->
  returned (schema s documentAST variables context) = Iterator ->
  pending_timeout (sub context) (length (timers s)) (length (iterators s))
    (now s + ConnectTimeout) (register documentAST variables context uuid s).2.
Proof.
  intros Hwf Ha.
  destruct (register_accepted _ _ _ uuid _ Ha) as (_ & Hr & Hi & Ht & Hto & _ & _ & Hn).
  constructor.
  - by apply wf_register.
  - rewrite Hto. intros c Hc.
    apply lookup_insert_Some in Hc as [[<- _]|[_ Hc]]; [done|].
    pose proof (wf_handle _ Hwf _ _ Hc). lia.
  - rewrite Ht, length_app. cbn. lia.
  - rewrite Hi, length_app. cbn. lia.
  - left. rewrite Ht, Hn. split.
    + rewrite lookup_app_r by lia. by rewrite Nat.sub_diag.
    + unfold ConnectTimeout. lia.
Qed.






(* ===================================================================== *)
(** ** The claims about the filter *)
(* ===================================================================== *)

(** Whatever has been published went through the filter. *)
Lemma published_passed_filter evs s p :
  published s = [] ->
  p ∈ published (run evs s) ->
  exists v, shouldPublishSubscription (payload p) v = Ok true.
Proof.
  assert (Hstep : forall evs s,
    (forall p, p ∈ published s -> exists v, shouldPublishSubscription (payload p) v = Ok true) ->
    forall p, p ∈ published (run evs s) ->
      exists v, shouldPublishSubscription (payload p) v = Ok true).
  { clear. induction evs as [|ev evs IH]; intros s Hs p Hp; [by apply Hs|].
    rewrite run_cons in Hp. apply (IH (step ev s)); [|done].
    intros q Hq.
    destruct (step_published ev s) as [Heq|(l & lp & it & e & rest & _ & _ & _ & _ & _ & Hf & Heq)];
      rewrite Heq in Hq; [by apply Hs|].
    apply elem_of_app in Hq as [Hq|Hq%list_elem_of_singleton]; [by apply Hs|].
    subst q. cbn. eauto. }
  intros Hnil. apply Hstep. rewrite Hnil. intros q Hq. by apply elem_of_nil in Hq.
Qed.

(** C6: the filter answers false for an event that is null (or
    undefined) and for an event object whose [data] is null (or
    undefined), whatever the variables; and no server that started empty
    ever publishes such an event. *)
Theorem filter_rejects_missing_body e :
  is_nullish e = true \/ (typeof e = TObject /\ is_nullish (data_of e) = true) ->
  (forall v, shouldPublishSubscription e v = Ok false) /\
  (forall sch url t0 evs p,
     p ∈ published (run evs (new_server sch url t0)) -> payload p <> e).
Proof.
  intros He. split; [intros v; by apply filter_no_body|].
  intros sch url t0 evs p Hp <-.
  apply published_passed_filter in Hp as [v Hv]; [|done].
  rewrite filter_no_body in Hv by done. discriminate.
Qed.

Lemma filter_rejects_missing_body_witness :
  (forall v, shouldPublishSubscription event_null_body v = Ok false) /\
  (forall sch url t0 evs p,
     p ∈ published (run evs (new_server sch url t0)) -> payload p <> event_null_body).
Proof. apply filter_rejects_missing_body. right. split; reflexivity. Defined.

(** C7: the filter answers true for every event that carries a body
    when the variables are the empty object. *)
Theorem filter_passes_without_variables e addr :
  carries_body e = true ->
  shouldPublishSubscription e (JObject addr []) = Ok true.
Proof.
  intros H. unfold shouldPublishSubscription. rewrite guard_body by exact H. reflexivity.
Qed.

Lemma filter_passes_without_variables_witness :
  shouldPublishSubscription (event_created 10 "1") no_variables = Ok true.
Proof. apply filter_passes_without_variables. reflexivity. Defined.

(** C3, as stated, fails: with a first field whose value is null the
    filter returns neither true nor false. *)
Lemma null_field_makes_the_filter_throw :
  data_of event_null_field = JObject 2 [("onCreate", JNull)] /\
  variables_id "1" = JObject 0 [("id", JString "1")] /\
  forall b, shouldPublishSubscription event_null_field (variables_id "1") <> Ok b.
Proof. split; [reflexivity|]. split; [reflexivity|]. intros b. discriminate. Qed.

(** C3 (as amended): for an event whose [data] is a non-empty object whose
    first field has a value that is neither null nor undefined, and for a
    non-empty variables object, the filter looks at the value [f] of that
    first field only and answers whether every variable [(key, value)] has
    [f[key] === value]: true if all do, false as soon as one does not. *)
Theorem filter_compares_first_field e addr b k f rest entry entries :
  is_nullish e = false ->
  data_of e = JObject b ((k, f) :: rest) ->
  is_nullish f = false ->
  shouldPublishSubscription e (JObject addr (entry :: entries)) =
    Ok (field_matches f (entry :: entries)).
Proof.
  intros He Hd Hf. unfold shouldPublishSubscription. rewrite He, Hd.
  cbn [is_nullish andb orb]. rewrite andb_false_r.
  cbn [Object_entries bind length Nat.eqb first_entry_value].
  rewrite every_matches by exact Hf. cbn [bind].
  destruct (field_matches _ _); reflexivity.
Qed.

Lemma filter_compares_first_field_witness :
  shouldPublishSubscription (event_created 10 "1") (variables_id "1") = Ok true /\
  shouldPublishSubscription (event_created 10 "1") (variables_id "2") = Ok false.
Proof.
  split.
  - apply (filter_compares_first_field (event_created 10 "1") 0 11 "onCreate"
             (JObject 12 [("id", JString "1")]) [] ("id", JString "1") []); reflexivity.
  - apply (filter_compares_first_field (event_created 10 "1") 0 11 "onCreate"
             (JObject 12 [("id", JString "1")]) [] ("id", JString "2") []); reflexivity.
Defined.

(** C10: with a non-empty variables object, the filter throws a
    TypeError when the [data] of the event is an empty object and when the
    value of the first field of [data] is null or undefined. *)
Theorem filter_throws e addr entry entries :
  is_nullish e = false ->
  (exists b, data_of e = JObject b []) \/
  (exists b k f rest, data_of e = JObject b ((k, f) :: rest) /\ is_nullish f = true) ->
  shouldPublishSubscription e (JObject addr (entry :: entries)) = Throw TypeError.
Proof.
  intros He [[b Hd]|(b & k & f & rest & Hd & Hf)];
    unfold shouldPublishSubscription; rewrite He, Hd;
    cbn [is_nullish andb orb]; rewrite andb_false_r;
    cbn [Object_entries bind length Nat.eqb first_entry_value]; [reflexivity|].
  rewrite every_matches_nullish by exact Hf. reflexivity.
Qed.

Lemma filter_throws_witness :
  shouldPublishSubscription event_empty_body (variables_id "1") = Throw TypeError /\
  shouldPublishSubscription event_null_field (variables_id "1") = Throw TypeError.
Proof.
  split.
  - apply (filter_throws event_empty_body 0 ("id", JString "1") []); [reflexivity|].
    left. exists 2%nat. reflexivity.
  - apply (filter_throws event_null_field 0 ("id", JString "1") []); [reflexivity|].
    right. exists 2%nat, "onCreate", JNull, []. split; reflexivity.
Defined.

(* ===================================================================== *)
(** ** Sample runs *)
(* ===================================================================== *)



Lemma unknown_registration_is_ignored_witness :
  (only_logged Level_error active_server (onClientSubscribed "t9" "alice" active_server) /\
   same_state active_server (onClientSubscribed "t9" "alice" active_server)) /\
  (only_logged Level_warn active_server (onClientUnsubscribed "t9" "alice" active_server) /\
   same_state active_server (onClientUnsubscribed "t9" "alice" active_server)).
Proof.
  apply unknown_registration_is_ignored.
  unfold no_registration. vm_compute. repeat constructor. discriminate.
Defined.

Lemma register_refused_witness :
  (register JNull no_variables alice "t1" refusing_server).1 =
    Refused (JArray 7 [JString "Unknown field"]) JNull /\
  same_state refusing_server (register JNull no_variables alice "t1" refusing_server).2.
Proof.
  destruct (register_refused JNull no_variables alice "t1" refusing_server
              7 [JString "Unknown field"] JUndefined eq_refl) as (_ & _ & H2 & H3 & _).
  split; [apply H2; reflexivity|exact H3].
Defined.

Lemma handshake_of_register_witness :
  (register JNull no_variables alice "t2"
     (run [Request JNull no_variables alice "t1"; Elapse 5000]
        (new_server accept_all "ws://localhost:0/" 0))).1 =
  Handshake [MqttConnection "ws://localhost:0/" ["t1"; "t2"] "alice"]
    [("t2", NewSubscription "t2" 6005000)].
Proof.
  destruct (handshake_of_register accept_all "ws://localhost:0/" 0
              [Request JNull no_variables alice "t1"; Elapse 5000]
              JNull no_variables alice "t2" eq_refl) as (H & _).
  exact H.
Defined.

(** C1, as stated, fails: on a registration that a subscribed event has
    claimed, the second subscribed event for the same topic and client
    enters a second loop over the same iterator, and that loop takes the
    next event of the stream. *)
Lemma second_subscribed_enters_second_loop :
  loops active_server = [Loop "alice" 0 "t1" no_variables Running] /\
  loops (step (Subscribed "t1" "alice") active_server) =
    [Loop "alice" 0 "t1" no_variables Running; Loop "alice" 0 "t1" no_variables Running] /\
  step (Subscribed "t1" "alice") active_server <> active_server /\
  published (run [Subscribed "t1" "alice"; Produce 0 (event_created 10 "1"); Next 1]
               active_server) =
    [Publication "t1" (event_created 10 "1") 0 false].
Proof.
  split; [reflexivity|]. split; [reflexivity|]. split; [|reflexivity].
  intros H. apply (f_equal (fun s => length (loops s))) in H. discriminate.
Qed.

Lemma subscribed_again_adds_a_loop_witness :
  same_stores active_server (onClientSubscribed "t1" "alice" active_server) /\
  loops (onClientSubscribed "t1" "alice" active_server) =
    loops active_server ++ [Loop "alice" 0 "t1" no_variables Running] /\
  published (run [Produce 0 (event_created 10 "1"); Next 0; Next 1]
               (onClientSubscribed "t1" "alice" active_server)) =
    [Publication "t1" (event_created 10 "1") 0 false].
Proof.
  destruct (subscribed_again_adds_a_loop "t1" "alice" active_server
              [Registration alice JNull no_variables "t1" 0 true] 0
              (Registration alice JNull no_variables "t1" 0 true)
              eq_refl eq_refl eq_refl) as (H1 & H2 & H3).
  split; [exact H1|]. split; [exact H2|].
  apply (H3 0%nat (event_created 10 "1")); reflexivity.
Defined.


(* ===================================================================== *)
(** ** The claim about the timeout *)
(* ===================================================================== *)




(* ===================================================================== *)
(** ** Further properties of the server *)
(* ===================================================================== *)

Lemma step_mute ev s : mute (step ev (mute s)) = mute (step ev s).
Proof.
  destruct ev as [d v cx u|c|c|t c|t c|dt|j e|l]; cbn [step].
  - unfold register, subscribeToGraphQL. cbn. by destruct (returned _).
  - unfold onClientConnect. cbn. by destruct (iteratorTimeout s !! c).
  - unfold onClientDisconnect. cbn. by destruct (registrations s !! c).
  - unfold onClientSubscribed, subscribeToGraphQL. cbn.
    destruct (registrations s !! c) as [regs|]; [|done].
    destruct (find_registration t regs) as [[k reg]|]; [|done].
    destruct (isRegistered reg); cbn; [done|]. by destruct (returned _).
  - unfold onClientUnsubscribed. cbn.
    destruct (registrations s !! c) as [regs|]; [|done].
    by destruct (find_registration t regs) as [[k reg]|].
  - reflexivity.
  - reflexivity.
  - unfold next. cbn.
    destruct (loops s !! l) as [lp|]; [|done].
    destruct (loop_status_of lp); try done.
    destruct (iterators s !! loop_asyncIterator lp) as [it|]; [|done].
    destruct (done it); [done|].
    destruct (queue it) as [|e rest]; [done|].
    by destruct (shouldPublishSubscription e (loop_variables lp)) as [[|]|].
Qed.

Lemma disconnect_mute c s : mute (onClientDisconnect c s) = mute s.
Proof. unfold onClientDisconnect. cbn. by destruct (registrations s !! c). Qed.

Lemma run_mute evs s : mute (run evs (mute s)) = mute (run evs s).
Proof.
  revert s. induction evs as [|ev evs IH]; intros s; [done|].
  rewrite !run_cons, <- (IH (step ev (mute s))), <- (IH (step ev s)).
  by rewrite step_mute.
Qed.

Lemma run_mute_eq evs s s' : mute s = mute s' -> mute (run evs s) = mute (run evs s').
Proof. intros H. by rewrite <- (run_mute evs s), <- (run_mute evs s'), H. Qed.

(** X1: a disconnect does nothing but print: taking every
    clientDisconnected event out of a run gives the same registrations,
    timeouts, streams, timers, loops and publications. *)
Theorem disconnects_only_print evs s :
  mute (run evs s) = mute (run (without_disconnects evs) s).
Proof.
  revert s. induction evs as [|ev evs IH]; intros s; [done|].
  rewrite run_cons. unfold without_disconnects. cbn [List.filter].
  destruct ev as [d v cx u|c|c|t c|t c|dt|j e|l]; cbn [is_disconnect negb];
    try (rewrite run_cons; apply IH).
  cbn [step]. rewrite (run_mute_eq evs _ s) by apply disconnect_mute. apply IH.
Qed.

Lemma turns_cons ev evs :
  turns (ev :: evs) = (turns [ev] + turns evs)%nat.
Proof. unfold turns. cbn. by destruct ev. Qed.

(** X7: the publish log only grows, by at most one message per loop
    turn; no other event publishes. *)
Theorem published_only_grows evs s :
  published s `prefix_of` published (run evs s) /\
  (length (published (run evs s)) <= length (published s) + turns evs)%nat.
Proof.
  revert s. induction evs as [|ev evs IH]; intros s.
  - split; [done|]. cbn. lia.
  - rewrite run_cons, turns_cons. destruct (IH (step ev s)) as [Hp Hl].
    destruct (step_published ev s)
      as [Heq|(l & lp & it & e & rest & -> & _ & _ & _ & _ & _ & Heq)];
      rewrite Heq in Hp, Hl.
    + split; [done|lia].
    + split; [by eapply prefix_app_l|].
      rewrite length_app in Hl. cbn in *. lia.
Qed.

(** A registration is never dropped, and keeps its topic id and its
    variables. *)
Lemma store_registered_topic c i reg0 reg' s t vars :
  topicId reg' = topicId reg0 -> variables reg' = variables reg0 ->
  (forall regs, registrations s !! c = Some regs -> regs !! i = Some reg0) ->
  registered_topic s t vars ->
  registered_topic (store c i reg' s) t vars.
Proof.
  intros Ht Hv Hi (c' & regs & reg & Hc & Hin & <- & <-).
  destruct (decide (c = c')) as [->|Hne].
  - specialize (Hi _ Hc). apply list_elem_of_lookup in Hin as [j Hj].
    exists c', (<[i := reg']> regs).
    destruct (decide (i = j)) as [->|Hij].
    + exists reg'. assert (reg = reg0) as -> by congruence.
      split; [cbn; by rewrite lookup_alter_eq, Hc|].
      split; [|done]. apply list_elem_of_lookup. exists j.
      apply list_lookup_insert_eq. by eapply lookup_lt_Some.
    + exists reg. split; [cbn; by rewrite lookup_alter_eq, Hc|].
      split; [|done]. apply list_elem_of_lookup. exists j.
      by rewrite list_lookup_insert_ne.
  - exists c', regs, reg. split; [cbn; by rewrite lookup_alter_ne|done].
Qed.

Lemma registered_topic_frame s s' t vars :
  registrations s' = registrations s ->
  registered_topic s t vars -> registered_topic s' t vars.
Proof. intros H (c & regs & reg & Hc & Hr). exists c, regs, reg. by rewrite H. Qed.

Lemma registered_topic_step ev s t vars :
  registered_topic s t vars -> registered_topic (step ev s) t vars.
Proof.
  intros Hreg.
  destruct ev as [d v cx u|c|c|t' c|t' c|dt|j e|l]; cbn [step].
  - unfold register, subscribeToGraphQL. cbn.
    destruct (returned _); cbn; [|by eapply registered_topic_frame].
    destruct Hreg as (c & regs & reg & Hc & Hin & Ht & Hv).
    destruct (decide (sub cx = c)) as [<-|Hne].
    + eexists (sub cx), _, reg. cbn. rewrite lookup_insert_eq, Hc. cbn.
      split; [done|]. split; [|done]. apply elem_of_app. by left.
    + exists c, regs, reg. cbn. by rewrite lookup_insert_ne.
  - unfold onClientConnect. cbn.
    destruct (iteratorTimeout s !! c); by eapply registered_topic_frame.
  - unfold onClientDisconnect. cbn.
    destruct (registrations s !! c); by eapply registered_topic_frame.
  - unfold onClientSubscribed, subscribeToGraphQL. cbn.
    destruct (registrations s !! c) as [regs|] eqn:Hc; [|by eapply registered_topic_frame].
    destruct (find_registration t' regs) as [[k reg]|] eqn:Hf;
      [|by eapply registered_topic_frame].
    apply find_registration_Some in Hf as [Hk _].
    destruct (isRegistered reg); cbn; [by eapply registered_topic_frame|].
    destruct (returned _); [|by eapply registered_topic_frame].
    unfold start_loop.
    eapply (registered_topic_frame (store c k _ _)); [reflexivity|].
    apply (store_registered_topic c k reg); try done;
      try (by eapply registered_topic_frame).
    cbn. intros regs' Hc'. congruence.
  - unfold onClientUnsubscribed. cbn.
    destruct (registrations s !! c) as [regs|] eqn:Hc; [|by eapply registered_topic_frame].
    destruct (find_registration t' regs) as [[k reg]|] eqn:Hf;
      [|by eapply registered_topic_frame].
    apply find_registration_Some in Hf as [Hk _].
    apply (store_registered_topic c k reg); try done;
      try (by eapply registered_topic_frame).
    cbn. intros regs' Hc'. congruence.
  - by eapply registered_topic_frame.
  - by eapply registered_topic_frame.
  - eapply registered_topic_frame; [|exact Hreg].
    unfold next. handler_cases; reflexivity.
Qed.

Lemma loops_registered_step ev s :
  loops_registered s -> loops_registered (step ev s).
Proof.
  intros Hl.
  assert (Hkeep : forall s', loops s' = loops s ->
            (forall t vars, registered_topic s t vars -> registered_topic s' t vars) ->
            loops_registered s').
  { intros s' Hlo Hrt l lp Hlp. rewrite Hlo in Hlp. by apply Hrt, (Hl l). }
  assert (Hframe : forall s', loops s' = loops s -> registrations s' = registrations s ->
            loops_registered s').
  { intros s' Hlo Hr. apply Hkeep; [done|]. intros t vars. by apply registered_topic_frame. }
  destruct ev as [d v cx u|c|c|t c|t c|dt|j e|l].
  - apply Hkeep; [|intros t vars; apply registered_topic_step].
    cbn [step]. unfold register. cbn. by destruct (returned _).
  - apply Hframe; cbn [step]; unfold onClientConnect; cbn;
      by destruct (iteratorTimeout s !! c).
  - apply Hframe; cbn [step]; unfold onClientDisconnect; cbn;
      by destruct (registrations s !! c).
  - pose proof (registered_topic_step (Subscribed t c) s) as Hstep.
    cbn [step] in *. revert Hstep.
    unfold onClientSubscribed, subscribeToGraphQL. cbn.
    destruct (registrations s !! c) as [regs|] eqn:Hc; [|intros _; by apply Hframe].
    destruct (find_registration t regs) as [[k reg]|] eqn:Hf; [|intros _; by apply Hframe].
    apply find_registration_Some in Hf as [Hk Ht].
    assert (Hin : reg ∈ regs) by (apply list_elem_of_lookup; eauto).
    assert (Hnew : forall s', registered_topic s' (topicId reg) (variables reg) ->
              (forall t vars, registered_topic s t vars -> registered_topic s' t vars) ->
              forall lps, lps = loops s ++
                [Loop c (asyncIterator reg) (topicId reg) (variables reg) Running] ->
              forall l lp, lps !! l = Some lp ->
                registered_topic s' (loop_topicId lp) (loop_variables lp)).
    { intros s' Hs' Hrt lps -> l lp Hlp.
      apply lookup_app_Some in Hlp as [Hlp|[_ Hlp]]; [by apply Hrt, (Hl l)|].
      apply list_lookup_singleton_Some in Hlp as [_ <-]. exact Hs'. }
    assert (Hreg : registered_topic s (topicId reg) (variables reg))
      by (exists c, regs, reg; done).
    destruct (isRegistered reg); cbn.
    + intros Hstep l lp Hlp. eapply Hnew; [| |reflexivity|exact Hlp]; by auto.
    + destruct (returned _); [|intros _; by apply Hframe].
      intros Hstep l lp Hlp. cbn in Hlp.
      apply lookup_app_Some in Hlp as [Hlp|[_ Hlp]]; [by apply Hstep, (Hl l)|].
      apply list_lookup_singleton_Some in Hlp as [_ <-]. cbn. by apply Hstep.
  - apply Hkeep; [|intros t' vars; apply registered_topic_step].
    cbn [step]. unfold onClientUnsubscribed. cbn. handler_cases; reflexivity.
  - by apply Hframe.
  - by apply Hframe.
  - cbn [step]. intros l' lp' Hlp'.
    assert (Hr : registrations (next l s) = registrations s)
      by (unfold next; handler_cases; reflexivity).
    assert (exists lp0, loops s !! l' = Some lp0 /\ loop_topicId lp' = loop_topicId lp0 /\
              loop_variables lp' = loop_variables lp0) as (lp0 & Hlp0 & -> & ->).
    { revert Hlp'. unfold next.
      destruct (loops s !! l) as [lp|] eqn:Hlp; [|by eauto].
      assert (Halter : forall st, alter (settle st) l (loops s) !! l' = Some lp' ->
                exists lp0, loops s !! l' = Some lp0 /\ loop_topicId lp' = loop_topicId lp0 /\
                  loop_variables lp' = loop_variables lp0).
      { intros st Ha. destruct (decide (l = l')) as [->|Hne].
        - rewrite list_lookup_alter_eq, Hlp in Ha. injection Ha as <-. eauto.
        - rewrite list_lookup_alter_ne in Ha by done. eauto. }
      destruct (loop_status_of lp); try by eauto.
      destruct (iterators s !! loop_asyncIterator lp) as [it|]; [|by eauto].
      destruct (done it); [by apply Halter|].
      destruct (queue it) as [|e rest]; [by eauto|].
      destruct (shouldPublishSubscription e (loop_variables lp)) as [[|]|]; cbn;
        by eauto. }
    eapply registered_topic_frame; [exact Hr|]. by apply (Hl l').
Qed.

Lemma published_for_registrations_step ev s :
  loops_registered s ->
  published_for_registrations s -> published_for_registrations (step ev s).
Proof.
  intros Hl Hp p Hin.
  destruct (step_published ev s)
    as [Heq|(l & lp & it & e & rest & _ & Hlp & _ & _ & _ & Hf & Heq)];
    rewrite Heq in Hin.
  - destruct (Hp p Hin) as (Hq & Hr & vars & Hreg & Hpass).
    split; [done|]. split; [done|]. exists vars. split; [|done].
    by apply registered_topic_step.
  - apply elem_of_app in Hin as [Hin|Hin%list_elem_of_singleton].
    + destruct (Hp p Hin) as (Hq & Hr & vars & Hreg & Hpass).
      split; [done|]. split; [done|]. exists vars. split; [|done].
      by apply registered_topic_step.
    + subst p. cbn. split; [done|]. split; [done|].
      exists (loop_variables lp). split; [|done].
      apply registered_topic_step. by apply (Hl l).
Qed.

Lemma published_for_registrations_run evs s :
  loops_registered s -> published_for_registrations s ->
  loops_registered (run evs s) /\ published_for_registrations (run evs s).
Proof.
  revert s. induction evs as [|ev evs IH]; intros s Hl Hp; [done|].
  rewrite run_cons. apply IH.
  - by apply loops_registered_step.
  - by apply published_for_registrations_step.
Qed.

(** X4: on a server that started empty, every message handed to the
    broker has qos 0 and retain false, and its topic is the topic id of a
    registration in the store whose variables let its payload through the
    filter. *)
Theorem publications_belong_to_registrations sch url t0 evs p :
  p ∈ published (run evs (new_server sch url t0)) ->
  qos p = 0 /\ retain p = false /\
  exists c regs reg,
    registrations (run evs (new_server sch url t0)) !! c = Some regs /\
    reg ∈ regs /\ topicId reg = topic p /\
    shouldPublishSubscription (payload p) (variables reg) = Ok true.
Proof.
  intros Hin.
  destruct (published_for_registrations_run evs (new_server sch url t0)) as [_ Hp].
  - intros l lp Hlp. cbn in Hlp. by rewrite lookup_nil in Hlp.
  - intros q Hq. cbn in Hq. by apply elem_of_nil in Hq.
  - destruct (Hp p Hin) as (Hq & Hr & vars & (c & regs & reg & Hc & Hreg & Ht & Hv) & Hpass).
    split; [done|]. split; [done|]. exists c, regs, reg. by rewrite Hv.
Qed.

(* ===================================================================== *)
(** ** Delivery *)
(* ===================================================================== *)

(** A loop drops the event the filter answers false on. *)
Lemma next_skips l s lp e rest :
  loops s !! l = Some lp -> loop_status_of lp = Running ->
  iterators s !! loop_asyncIterator lp = Some (AsyncIterator (e :: rest) false) ->
  shouldPublishSubscription e (loop_variables lp) = Ok false ->
  loops (next l s) = loops s /\
  iterators (next l s) = <[loop_asyncIterator lp := AsyncIterator rest false]> (iterators s) /\
  published (next l s) = published s.
Proof.
  intros Hl Hst Hit Hf. unfold next. rewrite Hl, Hst, Hit. cbn. rewrite Hf. repeat split.
Qed.

(** A loop ends, rejected, on the event the filter throws on. *)
Lemma next_rejects l s lp e rest :
  loops s !! l = Some lp -> loop_status_of lp = Running ->
  iterators s !! loop_asyncIterator lp = Some (AsyncIterator (e :: rest) false) ->
  shouldPublishSubscription e (loop_variables lp) = Throw TypeError ->
  loops (next l s) = alter (settle Rejected) l (loops s) /\
  iterators (next l s) = <[loop_asyncIterator lp := AsyncIterator rest false]> (iterators s) /\
  published (next l s) = published s.
Proof.
  intros Hl Hst Hit Hf. unfold next. rewrite Hl, Hst, Hit. cbn. rewrite Hf. repeat split.
Qed.

Lemma produce_run i es s q :
  iterators s !! i = Some (AsyncIterator q false) ->
  loops (run (Produce i <$> es) s) = loops s /\
  published (run (Produce i <$> es) s) = published s /\
  iterators (run (Produce i <$> es) s) !! i = Some (AsyncIterator (q ++ es) false).
Proof.
  revert s q. induction es as [|e es IH]; intros s q Hi.
  - cbn. by rewrite app_nil_r.
  - rewrite fmap_cons, run_cons.
    destruct (IH (step (Produce i e) s) (q ++ [e])) as (Hl & Hp & Hit).
    + cbn. by rewrite list_lookup_alter_eq, Hi.
    + rewrite Hl, Hp, Hit, <- app_assoc. done.
Qed.

Lemma drain l lp q s :
  loops s !! l = Some lp -> loop_status_of lp = Running ->
  iterators s !! loop_asyncIterator lp = Some (AsyncIterator q false) ->
  Forall (filter_returns (loop_variables lp)) q ->
  published (run (replicate (length q) (Next l)) s) =
    published s ++ deliveries (loop_topicId lp) (loop_variables lp) q.
Proof.
  revert s. induction q as [|e q IH]; intros s Hl Hst Hit Hq.
  - cbn. by rewrite app_nil_r.
  - apply Forall_cons in Hq as [[b He] Hq].
    cbn [length replicate]. rewrite run_cons. cbn [step].
    assert (Hlen : (loop_asyncIterator lp < length (iterators s))%nat)
      by by eapply lookup_lt_Some.
    unfold deliveries, passes. cbn [List.filter]. rewrite He.
    destruct b.
    + destruct (next_takes l s lp e q Hl Hst Hit He) as (Hlo & Hits & Hpub).
      rewrite IH; try done.
      * rewrite Hpub, <- app_assoc. done.
      * by rewrite Hlo.
      * rewrite Hits. by apply list_lookup_insert_eq.
    + destruct (next_skips l s lp e q Hl Hst Hit He) as (Hlo & Hits & Hpub).
      rewrite IH; try done.
      * by rewrite Hpub.
      * by rewrite Hlo.
      * rewrite Hits. by apply list_lookup_insert_eq.
Qed.

(** X5: a running loop publishes the events of its stream in the order
    the engine produced them, leaving out those the filter answers false
    on: nothing is reordered, repeated or lost. *)
Theorem loop_delivers_in_order l lp es s :
  loops s !! l = Some lp -> loop_status_of lp = Running ->
  iterators s !! loop_asyncIterator lp = Some fresh_iterator ->
  Forall (filter_returns (loop_variables lp)) es ->
  published (run (produce_then_drain (loop_asyncIterator lp) l es) s) =
    published s ++ deliveries (loop_topicId lp) (loop_variables lp) es.
Proof.
  intros Hl Hst Hit Hes. unfold produce_then_drain. rewrite run_app.
  destruct (produce_run (loop_asyncIterator lp) es s [] Hit) as (Hlo & Hp & Hi).
  rewrite (drain l lp es); try done.
  - by rewrite Hp.
  - by rewrite Hlo.
Qed.

Lemma find_registration_last topic regs reg :
  Forall (fun r => topicId r <> topic) regs -> topicId reg = topic ->
  find_registration topic (regs ++ [reg]) = Some (length regs, reg).
Proof.
  intros Hall Ht. unfold find_registration. apply list_find_Some. split; [|split].
  - rewrite lookup_app_r by lia. by rewrite Nat.sub_diag.
  - done.
  - intros j y Hj Hlt. rewrite lookup_app_l in Hj by done.
    eapply Forall_lookup_1 in Hall; [|exact Hj]. done.
Qed.

(** X6: register, then the subscribed event for the new topic, then
    events from the engine on none of which the filter throws: each event
    that passes the filter against the variables of the request is
    published to the new topic, in order, and nothing else is.  (An event
    on which the filter throws ends the loop, and nothing after it is
    published.) *)
Theorem register_subscribe_deliver documentAST variables context uuid s es :
  returned (schema s documentAST variables context) = Iterator ->
  no_registration uuid (sub context) s ->
  Forall (filter_returns variables) es ->
  published
    (run (Subscribed uuid (sub context)
            :: produce_then_drain (length (iterators s)) (length (loops s)) es)
       (register documentAST variables context uuid s).2) =
  published s ++ deliveries uuid variables es.
Proof.
  intros Ha Hno Hes.
  destruct (register_accepted _ _ _ uuid _ Ha) as (_ & Hr & Hi & _ & _ & Hlo & Hp & _).
  set (s1 := (register documentAST variables context uuid s).2) in *.
  set (reg := Registration context documentAST variables uuid (length (iterators s)) true) in *.
  assert (Hc : registrations s1 !! sub context = Some (registrations_of (sub context) s ++ [reg]))
    by by rewrite Hr, lookup_insert_eq.
  assert (Hf : find_registration uuid (registrations_of (sub context) s ++ [reg])
               = Some (length (registrations_of (sub context) s), reg)).
  { apply find_registration_last; [|done].
    unfold no_registration, registrations_of in *.
    destruct (registrations s !! sub context); [done|by constructor]. }
  rewrite run_cons. cbn [step].
  rewrite (subscribed_registered _ _ _ _ _ _ Hc Hf eq_refl).
  set (s2 := start_loop _ _ _).
  assert (Hl2 : loops s2 !! length (loops s)
                = Some (Loop (sub context) (length (iterators s)) uuid variables Running)).
  { unfold s2. cbn. rewrite Hlo, lookup_app_r by lia. by rewrite Nat.sub_diag. }
  assert (Hi2 : iterators s2 !! length (iterators s) = Some fresh_iterator).
  { unfold s2. cbn. rewrite Hi, lookup_app_r by lia. by rewrite Nat.sub_diag. }
  unfold produce_then_drain. rewrite run_app.
  destruct (produce_run (length (iterators s)) es s2 [] Hi2) as (Hlo2 & Hp2 & Hq2).
  rewrite (drain (length (loops s))
             (Loop (sub context) (length (iterators s)) uuid variables Running) es);
    cbn; try done.
  - rewrite Hp2. unfold s2. cbn. by rewrite Hp.
  - by rewrite Hlo2.
Qed.

(* ===================================================================== *)
(** ** Loops that have ended *)
(* ===================================================================== *)

Lemma ended_loop_idle l lp s :
  loops s !! l = Some lp -> loop_status_of lp <> Running -> next l s = s.
Proof. intros Hl Hst. unfold next. rewrite Hl. by destruct (loop_status_of lp). Qed.

Lemma ended_loop_step ev s l lp :
  loops s !! l = Some lp -> loop_status_of lp <> Running ->
  loops (step ev s) !! l = Some lp.
Proof.
  intros Hl Hst.
  destruct ev as [d v cx u|c|c|t c|t c|dt|j e|l']; cbn [step].
  - unfold register. cbn. by destruct (returned _).
  - unfold onClientConnect. cbn. by destruct (iteratorTimeout s !! c).
  - unfold onClientDisconnect. cbn. by destruct (registrations s !! c).
  - unfold onClientSubscribed, subscribeToGraphQL. cbn.
    handler_cases; cbn; try done; by apply lookup_app_l_Some.
  - unfold onClientUnsubscribed. cbn. by handler_cases.
  - done.
  - done.
  - destruct (decide (l' = l)) as [->|Hne]; [by erewrite ended_loop_idle|].
    unfold next. handler_cases; cbn; try done; by rewrite list_lookup_alter_ne.
Qed.

Lemma ended_loop_run evs s l lp :
  loops s !! l = Some lp -> loop_status_of lp <> Running ->
  loops (run evs s) !! l = Some lp.
Proof.
  revert s. induction evs as [|ev evs IH]; intros s Hl Hst; [done|].
  rewrite run_cons. apply IH; [|done]. by apply ended_loop_step.
Qed.

(** X8: an event on which the filter throws is taken off the stream and
    ends the loop that took it: the loop is rejected, stays so whatever
    happens, and never takes another event. *)
Theorem filter_error_ends_the_loop l lp e rest s evs :
  loops s !! l = Some lp -> loop_status_of lp = Running ->
  iterators s !! loop_asyncIterator lp = Some (AsyncIterator (e :: rest) false) ->
  shouldPublishSubscription e (loop_variables lp) = Throw TypeError ->
  published (next l s) = published s /\
  iterators (next l s) !! loop_asyncIterator lp = Some (AsyncIterator rest false) /\
  loops (run evs (next l s)) !! l = Some (settle Rejected lp) /\
  next l (run evs (next l s)) = run evs (next l s).
Proof.
  intros Hl Hst Hit Hf.
  destruct (next_rejects l s lp e rest Hl Hst Hit Hf) as (Hlo & Hits & Hpub).
  assert (Hr : loops (next l s) !! l = Some (settle Rejected lp))
    by by rewrite Hlo, list_lookup_alter_eq, Hl.
  assert (Hrun : loops (run evs (next l s)) !! l = Some (settle Rejected lp))
    by by apply ended_loop_run.
  split; [done|]. split; [|split; [done|]].
  - rewrite Hits. apply list_lookup_insert_eq. by eapply lookup_lt_Some.
  - by eapply ended_loop_idle.
Qed.

(* ===================================================================== *)
(** ** Timeouts that connect cannot clear, and timeouts it clears *)
(* ===================================================================== *)

Lemma run_now evs s : now (run evs s) = now s + elapsed evs.
Proof.
  revert s. induction evs as [|ev evs IH]; intros s.
  - cbn. lia.
  - rewrite run_cons, IH, step_now, (elapsed_cons ev evs). lia.
Qed.

Lemma pending_timeout_kept clientId h i D evs s :
  pending_timeout clientId h i D s ->
  Forall (fun ev => ~ is_connect_of clientId ev) evs ->
  pending_timeout clientId h i D (run evs s).
Proof.
  revert s. induction evs as [|ev evs IH]; intros s Hp Hevs; [done|].
  apply Forall_cons in Hevs as [Hev Hevs]. rewrite run_cons.
  apply IH; [by apply pending_timeout_step|done].
Qed.

Lemma orphaned_timeout_step h i D ev s :
  orphaned_timeout h i D s -> orphaned_timeout h i D (step ev s).
Proof.
  intros [Hwf Hun Hh Hi Ht].
  assert (Hgoal :
    (forall c, iteratorTimeout (step ev s) !! c <> Some h) /\
    ((timers s !! h = Some (Timer D i Armed) /\ now s < D) ->
     (timers (step ev s) !! h = Some (Timer D i Armed) /\ now (step ev s) < D) \/
     iterators (step ev s) !! i = Some closed)).
  { destruct ev as [d v cx u|c|c|t c|t c|dt|j e|l]; cbn [step].
    - unfold register. cbn. destruct (returned _); cbn; [|by eauto].
      split.
      + intros c Hc. apply lookup_insert_Some in Hc as [[_ Hc]|[_ Hc]]; [lia|by eapply Hun].
      + intros [Htm Hnow]. left. by rewrite lookup_app_l.
    - unfold onClientConnect. cbn.
      destruct (iteratorTimeout s !! c) as [h'|] eqn:Hc; cbn; [|by eauto].
      split; [done|]. intros [Htm Hnow]. left.
      rewrite list_lookup_alter_ne; [done|].
      intros ->. by eapply Hun.
    - unfold onClientDisconnect. cbn. destruct (registrations s !! c); by eauto.
    - unfold onClientSubscribed, subscribeToGraphQL. cbn.
      handler_cases; cbn; by eauto.
    - unfold onClientUnsubscribed. cbn. handler_cases; cbn; by eauto.
    - cbn. split; [done|]. intros [Htm Hnow].
      destruct (decide (D <= now s + Z.max 0 dt)) as [Hdue|Hnot].
      + right. apply return_all_target; [|done].
        unfold due_targets. apply list_elem_of_fmap. exists (Timer D i Armed).
        split; [done|]. apply list_elem_of_filter. split.
        * unfold due. cbn. by apply Z.leb_le.
        * apply list_elem_of_lookup. eauto.
      + left. split; [|lia]. rewrite list_lookup_fmap, Htm. cbn.
        unfold expire, due. cbn.
        destruct (Z.leb_spec D (now s + Z.max 0 dt)); [lia|done].
    - cbn. by eauto.
    - unfold next. handler_cases; cbn; by eauto. }
  destruct Hgoal as [Hun' Ht'].
  constructor.
  - by apply wf_step.
  - exact Hun'.
  - pose proof (step_timers_length ev s). lia.
  - pose proof (step_iterators_length ev s). lia.
  - destruct Ht as [Ht|Hc]; [by apply Ht'|]. right. by apply closed_step.
Qed.

Lemma orphaned_timeout_run h i D evs s :
  orphaned_timeout h i D s ->
  D <= now s + elapsed evs ->
  iterators (run evs s) !! i = Some closed.
Proof.
  revert s. induction evs as [|ev evs IH]; intros s Hp Hd.
  - cbn in Hd. destruct (ot_timer _ _ _ _ Hp) as [[_ Hlt]|Hc]; [lia|done].
  - rewrite run_cons. apply IH; [by apply orphaned_timeout_step|].
    rewrite step_now. rewrite elapsed_cons in Hd. lia.
Qed.

(** The next accepted register call of the same client takes the slot. *)
Lemma register_orphans clientId h i D documentAST variables context uuid s :
  pending_timeout clientId h i D s ->
  returned (schema s documentAST variables context) = Iterator ->
  sub context = clientId ->
  orphaned_timeout h i D (register documentAST variables context uuid s).2.
Proof.
  intros [Hwf Hown Hh Hi Ht] Ha Hsub.
  destruct (register_accepted _ _ _ uuid _ Ha) as (_ & _ & Hits & Htms & Hto & _ & _ & Hn).
  constructor.
  - by apply wf_register.
  - rewrite Hto. intros c Hc.
    apply lookup_insert_Some in Hc as [[_ Hc]|[Hne Hc]]; [lia|].
    apply Hown in Hc. congruence.
  - rewrite Htms, length_app. lia.
  - rewrite Hits, length_app. lia.
  - rewrite Htms, Hits, Hn. destruct Ht as [[Htm Hnow]|Hc].
    + left. by rewrite lookup_app_l.
    + right. by rewrite lookup_app_l.
Qed.

(** X2: when a client registers a second time before the timeout of its
    first registration has been cleared, that timeout can no longer be
    cleared: the first stream is returned once ConnectTimeout has passed
    since the first call, whatever happens after the second call - the
    client connecting included. *)
Theorem second_register_orphans_first_timeout
    documentAST1 variables1 context1 uuid1 documentAST2 variables2 context2 uuid2
    s evs0 evs :
  reachable s ->
  returned (schema s documentAST1 variables1 context1) = Iterator ->
  returned (schema s documentAST2 variables2 context2) = Iterator ->
  sub context2 = sub context1 ->
  Forall (fun ev => ~ is_connect_of (sub context1) ev) evs0 ->
  ConnectTimeout <= elapsed evs0 + elapsed evs ->
  iterators
    (run evs
       (register documentAST2 variables2 context2 uuid2
          (run evs0 (register documentAST1 variables1 context1 uuid1 s).2)).2)
    !! length (iterators s) = Some closed.
Proof.
  intros Hreach Ha1 Ha2 Hsub Hevs0 Hel.
  pose proof (reachable_well_formed _ Hreach) as Hwf.
  pose proof (register_pending_timeout _ _ _ uuid1 _ Hwf Ha1) as Hp.
  destruct (register_accepted _ _ _ uuid1 _ Ha1) as (_ & _ & _ & _ & _ & _ & _ & Hn1).
  set (s1 := (register documentAST1 variables1 context1 uuid1 s).2) in *.
  pose proof (pending_timeout_kept _ _ _ _ evs0 _ Hp Hevs0) as Hp2.
  assert (Hsch : schema (run evs0 s1) = schema s).
  { destruct (run_schema evs0 s1) as [-> _]. unfold s1, register. cbn.
    by destruct (returned _). }
  assert (Ha2' : returned (schema (run evs0 s1) documentAST2 variables2 context2) = Iterator)
    by by rewrite Hsch.
  pose proof (register_orphans _ _ _ _ _ _ _ uuid2 _ Hp2 Ha2' Hsub) as Ho.
  destruct (register_accepted _ _ _ uuid2 _ Ha2') as (_ & _ & _ & _ & _ & _ & _ & Hn2).
  eapply orphaned_timeout_run; [exact Ho|].
  rewrite Hn2, run_now, Hn1. lia.
Qed.

Lemma disarmed_step h ev s : disarmed h s -> disarmed h (step ev s).
Proof.
  intros (tm & Htm & Harm).
  assert (Hframe : forall s', timers s' = timers s -> disarmed h s').
  { intros s' Hs'. exists tm. by rewrite Hs'. }
  destruct ev as [d v cx u|c|c|t c|t c|dt|j e|l]; cbn [step].
  - unfold register. cbn. destruct (returned _); cbn; [|by apply Hframe].
    exists tm. split; [|done]. cbn. by apply lookup_app_l_Some.
  - unfold onClientConnect. cbn.
    destruct (iteratorTimeout s !! c) as [h'|]; [|by apply Hframe].
    destruct (decide (h' = h)) as [->|Hne].
    + exists (clear tm). cbn. rewrite list_lookup_alter_eq, Htm. cbn.
      split; [done|]. unfold clear. by rewrite Harm.
    + exists tm. cbn. by rewrite list_lookup_alter_ne.
  - apply Hframe. unfold onClientDisconnect. cbn. by destruct (registrations s !! c).
  - apply Hframe. unfold onClientSubscribed, subscribeToGraphQL. cbn.
    handler_cases; reflexivity.
  - apply Hframe. unfold onClientUnsubscribed. cbn. handler_cases; reflexivity.
  - exists tm. cbn. rewrite list_lookup_fmap, Htm. cbn.
    unfold expire, due. by rewrite Harm.
  - by apply Hframe.
  - apply Hframe. unfold next. handler_cases; reflexivity.
Qed.

Lemma disarmed_not_due h s t tm :
  disarmed h s -> timers s !! h = Some tm -> due t tm = false.
Proof.
  intros (tm' & Htm' & Harm) Htm. assert (tm' = tm) as -> by congruence.
  unfold due. by rewrite Harm.
Qed.

(** While timer [h] does not come due, the stream stays open through
    every event but an unsubscribed for its topic. *)
Lemma open_stream_step uuid h i ev s :
  open_stream uuid h i s ->
  ~ unsubscribes uuid ev ->
  (forall tm, timers s !! h = Some tm -> due (now s + elapsed [ev]) tm = false) ->
  open_stream uuid h i (step ev s).
Proof.
  intros [Hwf Hhold Htgt [q Hq]] Hev Hdue.
  pose proof (lookup_lt_Some _ _ _ Hq) as Hlt.
  assert (Hmain :
    (forall c regs reg, registrations (step ev s) !! c = Some regs -> reg ∈ regs ->
       asyncIterator reg = i -> topicId reg = uuid) /\
    (forall h' tm, timers (step ev s) !! h' = Some tm -> target tm = i -> h' = h) /\
    (exists q', iterators (step ev s) !! i = Some (AsyncIterator q' false))).
  { destruct ev as [d v cx u|c|c|t c|t c|dt|j e|l]; cbn [step].
    - unfold register, subscribeToGraphQL. cbn.
      destruct (returned _); cbn; [|by eauto].
      split; [|split].
      + intros c regs reg Hc Hin Hi.
        apply lookup_insert_Some in Hc as [[<- <-]|[_ Hc]]; [|by eauto].
        apply elem_of_app in Hin as [Hin|Hin%list_elem_of_singleton].
        * destruct (registrations s !! sub cx) eqn:Hc; cbn in Hin; [by eauto|].
          by apply elem_of_nil in Hin.
        * subst reg. cbn in Hi. lia.
      + intros h' tm Hh' Ht.
        apply lookup_app_Some in Hh' as [Hh'|[_ Hh']]; [by eauto|].
        apply list_lookup_singleton_Some in Hh' as [_ <-]. cbn in Ht. lia.
      + exists q. by apply lookup_app_l_Some.
    - unfold onClientConnect. cbn.
      destruct (iteratorTimeout s !! c) as [h'|]; cbn; [|by eauto].
      split; [done|]. split; [|by eauto].
      intros h'' tm Hh'' Ht.
      apply lookup_alter_timer in Hh'' as (tm0 & Hh0 & Heq); [|apply target_clear].
      rewrite Heq in Ht. by eauto.
    - unfold onClientDisconnect. cbn. destruct (registrations s !! c); by eauto.
    - unfold onClientSubscribed, subscribeToGraphQL. cbn.
      destruct (registrations s !! c) as [regs|] eqn:Hc; [|by eauto].
      destruct (find_registration t regs) as [[k reg]|] eqn:Hf; [|by eauto].
      destruct (isRegistered reg); cbn; [by eauto|].
      destruct (returned _); cbn; [|by eauto].
      split; [|split; [done|]].
      + intros c' regs' r Hc' Hr' Hi.
        apply lookup_alter_Some in Hc' as [(<- & regs0 & Hc0 & ->)|[_ Hc']]; [|by eauto].
        assert (regs0 = regs) as -> by congruence.
        apply elem_of_insert_inv in Hr' as [->|Hr']; [cbn in Hi; lia|by eauto].
      + exists q. by apply lookup_app_l_Some.
    - unfold onClientUnsubscribed. cbn.
      destruct (registrations s !! c) as [regs|] eqn:Hc; [|by eauto].
      destruct (find_registration t regs) as [[k reg]|] eqn:Hf; [|by eauto].
      apply find_registration_Some in Hf as [Hk Ht].
      assert (Hin : reg ∈ regs) by (apply list_elem_of_lookup; eauto).
      assert (Hne : asyncIterator reg <> i).
      { intros Hi. apply Hev. cbn. rewrite <- Ht. by eapply Hhold. }
      cbn. split; [|split; [done|]].
      + intros c' regs' r Hc' Hr' Hi.
        apply lookup_alter_Some in Hc' as [(<- & regs0 & Hc0 & ->)|[_ Hc']]; [|by eauto].
        assert (regs0 = regs) as -> by congruence.
        apply elem_of_insert_inv in Hr' as [->|Hr']; [done|by eauto].
      + exists q. by rewrite list_lookup_alter_ne.
    - cbn. split; [done|]. split.
      + intros h' tm Hh' Ht. rewrite list_lookup_fmap in Hh'.
        destruct (timers s !! h') as [tm0|] eqn:Hh0; [|done].
        injection Hh' as <-. rewrite target_expire in Ht. by eauto.
      + exists q. unfold return_all.
        assert (Hnot : i ∉ due_targets (now s + Z.max 0 dt) (timers s)).
        { unfold due_targets. intros (tm & -> & Hin)%list_elem_of_fmap.
          apply list_elem_of_filter in Hin as [Hd Hin].
          apply list_elem_of_lookup in Hin as [h' Hh'].
          assert (h' = h) as -> by by eapply Htgt.
          specialize (Hdue tm Hh'). cbn in Hdue. rewrite Z.add_0_r in Hdue. congruence. }
        induction (due_targets (now s + Z.max 0 dt) (timers s)) as [|j js IH]; [done|].
        cbn [foldr]. apply not_elem_of_cons in Hnot as [Hij Hnot].
        rewrite list_lookup_alter_ne by done. by apply IH.
    - cbn. split; [done|]. split; [done|].
      destruct (decide (j = i)) as [->|Hne].
      + exists (q ++ [e]). by rewrite list_lookup_alter_eq, Hq.
      + exists q. by rewrite list_lookup_alter_ne.
    - assert (Hr : registrations (next l s) = registrations s)
        by (unfold next; handler_cases; reflexivity).
      assert (Ht : timers (next l s) = timers s)
        by (unfold next; handler_cases; reflexivity).
      rewrite Hr, Ht. split; [done|]. split; [done|].
      unfold next.
      destruct (loops s !! l) as [lp|]; [|by eauto].
      destruct (loop_status_of lp); try by eauto.
      destruct (iterators s !! loop_asyncIterator lp) as [it|] eqn:Hit; [|by eauto].
      destruct (done it); [by eauto|].
      destruct (queue it) as [|e rest]; [by eauto|].
      assert (exists q', <[loop_asyncIterator lp := AsyncIterator rest false]> (iterators s) !! i
                = Some (AsyncIterator q' false)) as Hins.
      { destruct (decide (loop_asyncIterator lp = i)) as [Heq|Hne].
        - exists rest. rewrite Heq. by apply list_lookup_insert_eq.
        - exists q. by rewrite list_lookup_insert_ne. }
      destruct (shouldPublishSubscription e (loop_variables lp)) as [[|]|]; exact Hins. }
  destruct Hmain as (H1 & H2 & H3).
  constructor; [by apply wf_step|done|done|done].
Qed.

Lemma slot_step clientId h ev s :
  iteratorTimeout s !! clientId = Some h ->
  ~ is_request_of clientId ev ->
  iteratorTimeout (step ev s) !! clientId = Some h.
Proof.
  intros Hslot Hreq.
  destruct ev as [d v cx u|c|c|t c|t c|dt|j e|l]; cbn [step].
  - unfold register, subscribeToGraphQL. cbn.
    destruct (returned _); cbn; [|done].
    rewrite lookup_insert_ne; [done|]. intros Heq. by apply Hreq.
  - unfold onClientConnect. cbn. by destruct (iteratorTimeout s !! c).
  - unfold onClientDisconnect. cbn. by destruct (registrations s !! c).
  - unfold onClientSubscribed, subscribeToGraphQL. cbn. by handler_cases.
  - unfold onClientUnsubscribed. cbn. by handler_cases.
  - done.
  - done.
  - unfold next. by handler_cases.
Qed.

(** Before the connect: the timeout is waiting in the slot of its client
    and the stream is open. *)
Lemma awaiting_connect_step uuid clientId h i D ev s :
  pending_timeout clientId h i D s /\ open_stream uuid h i s /\
    iteratorTimeout s !! clientId = Some h ->
  ~ is_connect_of clientId ev -> ~ is_request_of clientId ev -> ~ unsubscribes uuid ev ->
  now s + elapsed [ev] < D ->
  pending_timeout clientId h i D (step ev s) /\ open_stream uuid h i (step ev s) /\
    iteratorTimeout (step ev s) !! clientId = Some h.
Proof.
  intros (Hp & Ho & Hslot) Hconn Hreq Hunsub Hlt.
  split; [by apply pending_timeout_step|]. split; [|by apply slot_step].
  apply open_stream_step; [done|done|].
  intros tm Htm. destruct (os_open _ _ _ _ Ho) as [q Hq].
  destruct (pt_timer _ _ _ _ _ Hp) as [[Htm' _]|Hc]; [|unfold closed in Hc; congruence].
  assert (tm = Timer D i Armed) as -> by congruence.
  unfold due, is_armed. cbn [status deadline andb]. apply Z.leb_gt. lia.
Qed.

Lemma awaiting_connect_run uuid clientId h i D evs s :
  pending_timeout clientId h i D s /\ open_stream uuid h i s /\
    iteratorTimeout s !! clientId = Some h ->
  Forall (fun ev => ~ is_connect_of clientId ev /\ ~ is_request_of clientId ev /\
                    ~ unsubscribes uuid ev) evs ->
  now s + elapsed evs < D ->
  pending_timeout clientId h i D (run evs s) /\ open_stream uuid h i (run evs s) /\
    iteratorTimeout (run evs s) !! clientId = Some h.
Proof.
  revert s. induction evs as [|ev evs IH]; intros s Hs Hevs Hlt; [done|].
  apply Forall_cons in Hevs as [(H1 & H2 & H3) Hevs]. rewrite run_cons.
  rewrite elapsed_cons in Hlt.
  assert (0 <= elapsed evs).
  { clear. induction evs as [|ev evs IH]; [done|].
    rewrite elapsed_cons. unfold elapsed at 1. cbn. destruct ev; lia. }
  apply IH; [|done|rewrite step_now; lia].
  apply awaiting_connect_step; try done. lia.
Qed.

(** The connect of the client clears the waiting timeout. *)
Lemma connect_disarms uuid clientId h i D s :
  pending_timeout clientId h i D s /\ open_stream uuid h i s /\
    iteratorTimeout s !! clientId = Some h ->
  open_stream uuid h i (onClientConnect clientId s) /\
  disarmed h (onClientConnect clientId s).
Proof.
  intros (Hp & Ho & Hslot).
  destruct (os_open _ _ _ _ Ho) as [q Hq].
  destruct (pt_timer _ _ _ _ _ Hp) as [[Htm Hnow]|Hc]; [|unfold closed in Hc; congruence].
  split.
  - apply (open_stream_step uuid h i (ClientConnected clientId)); [done|by intros []|].
    intros tm Htm'. assert (tm = Timer D i Armed) as -> by congruence.
    unfold due. cbn. apply Z.leb_gt. lia.
  - unfold onClientConnect. cbn. rewrite Hslot.
    exists (clear (Timer D i Armed)). cbn. by rewrite list_lookup_alter_eq, Htm.
Qed.

Lemma connected_run uuid h i evs s :
  open_stream uuid h i s -> disarmed h s ->
  Forall (fun ev => ~ unsubscribes uuid ev) evs ->
  open_stream uuid h i (run evs s).
Proof.
  revert s. induction evs as [|ev evs IH]; intros s Ho Hd Hevs; [done|].
  apply Forall_cons in Hevs as [Hev Hevs]. rewrite run_cons.
  apply IH; [|by apply disarmed_step|done].
  apply open_stream_step; [done|done|].
  intros tm Htm. by eapply disarmed_not_due.
Qed.

Lemma register_open_stream documentAST variables context uuid s :
  well_formed s ->
  returned (schema s documentAST variables context) = Iterator ->
  open_stream uuid (length (timers s)) (length (iterators s))
    (register documentAST variables context uuid s).2.
Proof.
  intros Hwf Ha.
  destruct (register_accepted _ _ _ uuid _ Ha) as (_ & Hr & Hits & Htms & _).
  constructor.
  - by apply wf_register.
  - rewrite Hr. intros c regs reg Hc Hin Hi.
    apply lookup_insert_Some in Hc as [[<- <-]|[_ Hc]].
    + apply elem_of_app in Hin as [Hin|Hin%list_elem_of_singleton]; [|by subst reg].
      unfold registrations_of in Hin.
      destruct (registrations s !! sub context) eqn:Hc; cbn in Hin.
      * pose proof (wf_iterator _ Hwf _ _ _ Hc Hin). lia.
      * by apply elem_of_nil in Hin.
    + pose proof (wf_iterator _ Hwf _ _ _ Hc Hin). lia.
  - rewrite Htms. intros h' tm Hh' Ht.
    apply lookup_app_Some in Hh' as [Hh'|[Hge Hh']].
    + pose proof (wf_target _ Hwf _ _ Hh'). lia.
    + apply list_lookup_singleton_Some in Hh' as [Hz _]. lia.
  - exists []. rewrite Hits, lookup_app_r by lia. by rewrite Nat.sub_diag.
Qed.

(** X3: a client that connects before ConnectTimeout has passed since
    its register call (and has not registered again in between) keeps the
    stream of the registration: the connect clears the timeout, and the
    stream stays open however long the clock runs, until an unsubscribed
    event for its topic. *)
Theorem connect_in_time_keeps_the_stream documentAST variables context uuid s evs1 evs2 :
  reachable s ->
  returned (schema s documentAST variables context) = Iterator ->
  Forall (fun ev => ~ is_connect_of (sub context) ev /\ ~ is_request_of (sub context) ev /\
                    ~ unsubscribes uuid ev) evs1 ->
  elapsed evs1 < ConnectTimeout ->
  Forall (fun ev => ~ unsubscribes uuid ev) evs2 ->
  exists q,
    iterators
      (run (evs1 ++ ClientConnected (sub context) :: evs2)
         (register documentAST variables context uuid s).2)
      !! length (iterators s) = Some (AsyncIterator q false).
Proof.
  intros Hreach Ha Hevs1 Hel Hevs2.
  pose proof (reachable_well_formed _ Hreach) as Hwf.
  destruct (register_accepted _ _ _ uuid _ Ha) as (_ & _ & _ & _ & Hto & _ & _ & Hn).
  set (s1 := (register documentAST variables context uuid s).2) in *.
  assert (H1 : pending_timeout (sub context) (length (timers s)) (length (iterators s))
                 (now s + ConnectTimeout) s1 /\
               open_stream uuid (length (timers s)) (length (iterators s)) s1 /\
               iteratorTimeout s1 !! sub context = Some (length (timers s))).
  { split; [by apply register_pending_timeout|]. split; [by apply register_open_stream|].
    by rewrite Hto, lookup_insert_eq. }
  apply (awaiting_connect_run uuid _ _ _ _ evs1) in H1; [|done|lia].
  apply connect_disarms in H1 as [Ho Hd].
  rewrite run_app, run_cons. cbn [step].
  by destruct (os_open _ _ _ _ (connected_run _ _ _ evs2 _ Ho Hd Hevs2)) as [q Hq]; eauto.
Qed.

(* ===================================================================== *)
(** ** Sample runs for the further properties *)
(* ===================================================================== *)

Lemma publications_belong_to_registrations_witness :
  exists c regs reg,
    registrations (run delivering_run (new_server accept_all "ws://localhost:0/" 0)) !! c
      = Some regs /\
    reg ∈ regs /\ topicId reg = "t1" /\
    shouldPublishSubscription (event_created 10 "1") (variables reg) = Ok true.
Proof.
  destruct (publications_belong_to_registrations accept_all "ws://localhost:0/" 0
              delivering_run (Publication "t1" (event_created 10 "1") 0 false))
    as (_ & _ & H).
  - apply list_elem_of_singleton. reflexivity.
  - exact H.
Defined.

Lemma loop_delivers_in_order_witness :
  published (run (produce_then_drain 0 0 sample_events) active_server) =
    [Publication "t1" (event_created 10 "1") 0 false;
     Publication "t1" (event_created 20 "2") 0 false].
Proof.
  apply (loop_delivers_in_order 0 (Loop "alice" 0 "t1" no_variables Running)
           sample_events active_server); try reflexivity.
  repeat constructor; eexists; reflexivity.
Defined.

Lemma register_subscribe_deliver_witness :
  published
    (run (Subscribed "t1" "alice"
            :: produce_then_drain 0 0 [event_created 10 "1"; event_created 20 "2"])
       (register JNull (variables_id "2") alice "t1" empty_server).2) =
    [Publication "t1" (event_created 20 "2") 0 false].
Proof.
  apply (register_subscribe_deliver JNull (variables_id "2") alice "t1" empty_server
           [event_created 10 "1"; event_created 20 "2"]).
  - reflexivity.
  - exact I.
  - repeat constructor; eexists; reflexivity.
Defined.

Lemma filter_error_ends_the_loop_witness :
  published (next 0 faulty_stream_server) = [] /\
  iterators (next 0 faulty_stream_server) !! 0%nat =
    Some (AsyncIterator [event_created 10 "1"] false) /\
  loops (run [Next 0] (next 0 faulty_stream_server)) !! 0%nat =
    Some (Loop "alice" 0 "t1" (variables_id "1") Rejected) /\
  next 0 (run [Next 0] (next 0 faulty_stream_server)) =
    run [Next 0] (next 0 faulty_stream_server).
Proof.
  apply (filter_error_ends_the_loop 0 (Loop "alice" 0 "t1" (variables_id "1") Running)
           event_null_field [event_created 10 "1"] faulty_stream_server [Next 0]);
    reflexivity.
Defined.

Lemma second_register_orphans_first_timeout_witness :
  iterators
    (run [ClientConnected "alice"; Subscribed "t1" "alice"; Elapse ConnectTimeout]
       (register JNull no_variables alice "t2"
          (run [] (register JNull no_variables alice "t1" empty_server).2)).2)
    !! 0%nat = Some closed.
Proof.
  apply (second_register_orphans_first_timeout JNull no_variables alice "t1"
           JNull no_variables alice "t2" empty_server []
           [ClientConnected "alice"; Subscribed "t1" "alice"; Elapse ConnectTimeout]).
  - exists accept_all, "ws://localhost:0/", 0, []. reflexivity.
  - reflexivity.
  - reflexivity.
  - reflexivity.
  - constructor.
  - vm_compute. discriminate.
Defined.

Lemma connect_in_time_keeps_the_stream_witness :
  exists q,
    iterators
      (run ([Elapse 1000] ++ ClientConnected "alice"
              :: [Elapse ConnectTimeout; Elapse ConnectTimeout])
         (register JNull no_variables alice "t1" empty_server).2)
      !! 0%nat = Some (AsyncIterator q false).
Proof.
  apply (connect_in_time_keeps_the_stream JNull no_variables alice "t1" empty_server
           [Elapse 1000] [Elapse ConnectTimeout; Elapse ConnectTimeout]).
  - exists accept_all, "ws://localhost:0/", 0, []. reflexivity.
  - reflexivity.
  - repeat constructor; intros H; exact H.
  - reflexivity.
  - repeat constructor; intros H; exact H.
Defined.

(* ===================================================================== *)
(** ** Objects built by spreading *)
(* ===================================================================== *)

Lemma assoc_app {A} k (l1 l2 : list (string * A)) :
  assoc k (l1 ++ l2) = match assoc k l1 with Some x => Some x | None => assoc k l2 end.
Proof.
  induction l1 as [|[k' x] l1 IH]; [done|]. cbn. by destruct (String.eqb k' k).
Qed.

Lemma assoc_set_prop k k' v o :
  assoc k (set_prop k' v o) = if String.eqb k' k then Some v else assoc k o.
Proof.
  induction o as [|[k0 x] o IH]; cbn; [done|].
  destruct (String.eqb_spec k0 k') as [->|H0]; cbn.
  - by destruct (String.eqb k' k).
  - rewrite IH. destruct (String.eqb_spec k0 k) as [->|H1]; [|done].
    by destruct (String.eqb_spec k' k) as [->|H2].
Qed.

Lemma assoc_set_all k entries o :
  assoc k (set_all entries o) =
    match written k entries with Some x => Some x | None => assoc k o end.
Proof.
  unfold set_all, written. revert o.
  induction entries as [|[k' x] entries IH]; intros o; [done|].
  cbn [foldl]. rewrite IH, reverse_cons, assoc_app, assoc_set_prop. cbn.
  destruct (assoc k (reverse entries)); [done|]. by destruct (String.eqb k' k).
Qed.

Lemma assoc_None {A} k (l : list (string * A)) : k ∉ l.*1 -> assoc k l = None.
Proof.
  induction l as [|[k' x] l IH]; [done|]. cbn. intros Hk.
  apply not_elem_of_cons in Hk as [Hne Hk].
  destruct (String.eqb_spec k' k) as [->|_]; [done|]. by apply IH.
Qed.

Lemma keys_set_prop k v o : (set_prop k v o).*1 = o.*1 \/ (set_prop k v o).*1 = o.*1 ++ [k] /\ k ∉ o.*1.
Proof.
  induction o as [|[k' x] o IH]; cbn.
  - right. split; [done|]. apply not_elem_of_nil.
  - destruct (String.eqb_spec k' k) as [->|Hne]; cbn; [by left|].
    destruct IH as [->|[-> Hk]]; [by left|]. right. split; [done|].
    apply not_elem_of_cons. by split.
Qed.

Lemma NoDup_set_prop k v o : NoDup o.*1 -> NoDup (set_prop k v o).*1.
Proof.
  intros Hnd. destruct (keys_set_prop k v o) as [->|[-> Hk]]; [done|].
  apply NoDup_app. split; [done|]. split; [|apply NoDup_singleton].
  intros x Hx ->%list_elem_of_singleton. done.
Qed.

Lemma NoDup_set_all entries o : NoDup o.*1 -> NoDup (set_all entries o).*1.
Proof.
  unfold set_all. revert o. induction entries as [|e entries IH]; intros o Hnd; [done|].
  cbn [foldl]. by apply IH, NoDup_set_prop.
Qed.

(** On an object, whose keys are all different, the value written
    under a key is the one found there. *)
Lemma written_NoDup k (o : props) : NoDup o.*1 -> written k o = assoc k o.
Proof.
  unfold written. induction o as [|[k' x] o IH]; [done|].
  cbn [fmap list_fmap fst]. intros [Hk Hnd]%NoDup_cons.
  rewrite reverse_cons, assoc_app, IH by done. cbn.
  destruct (String.eqb_spec k' k) as [->|Hne]; [|by destruct (assoc k o)].
  by rewrite assoc_None.
Qed.

Lemma written_set_all k entries : written k (set_all entries []) = written k entries.
Proof.
  rewrite written_NoDup by (apply NoDup_set_all, NoDup_nil_2).
  rewrite assoc_set_all. by destruct (written k entries).
Qed.

Lemma assoc_spread k v o :
  assoc k (spread v o) =
    match written k (spreadable v) with Some x => Some x | None => assoc k o end.
Proof. apply assoc_set_all. Qed.

(* ===================================================================== *)
(** ** lambdaSource *)
(* ===================================================================== *)

Lemma split_dot_nonempty s : Lambda.split_dot s <> [].
Proof.
  destruct s as [|c s]; cbn -[Lambda.dot Ascii.eqb]; [done|].
  destruct (Ascii.eqb c Lambda.dot); [done|]. by destruct (Lambda.split_dot s).
Qed.

Lemma split_dot_free s : Lambda.dot_free s = true -> Lambda.split_dot s = [s].
Proof.
  induction s as [|c s IH]; cbn -[Lambda.dot Ascii.eqb]; [done|].
  intros [Hc Hs]%andb_prop. apply negb_true_iff in Hc. by rewrite Hc, IH.
Qed.

Lemma split_dot_prefix p r :
  Lambda.dot_free p = true ->
  Lambda.split_dot (p ++ String Lambda.dot r) = p :: Lambda.split_dot r.
Proof.
  induction p as [|c p IH]; cbn -[Lambda.dot Ascii.eqb].
  - done.
  - intros [Hc Hp]%andb_prop. apply negb_true_iff in Hc.
    change (Lambda.split_dot (String c (p +:+ String Lambda.dot r))
            = String c p :: Lambda.split_dot r).
    cbn -[Lambda.dot Ascii.eqb String.append]. by rewrite Hc, IH.
Qed.

(** The parts of [split] joined by dots give the string back. *)
Lemma split_dot_join s : String.concat "." (Lambda.split_dot s) = s.
Proof.
  induction s as [|c s IH]; [done|]. cbn [Lambda.split_dot].
  destruct (Ascii.eqb c Lambda.dot) eqn:Hc.
  - apply Ascii.eqb_eq in Hc as ->.
    pose proof (split_dot_nonempty s) as Hne.
    destruct (Lambda.split_dot s) as [|p ps]; [done|].
    change (String.concat "." (EmptyString :: p :: ps))
      with (String Lambda.dot (String.concat "." (p :: ps))).
    by rewrite IH.
  - pose proof (split_dot_nonempty s) as Hne.
    destruct (Lambda.split_dot s) as [|p ps]; [done|].
    destruct ps as [|p' ps]; cbn -[Lambda.dot Ascii.eqb] in *; by rewrite <- IH.
Qed.

Lemma buildPrefix_raises custom e : Lambda.buildPrefix custom = Raise e -> e = Type_error.
Proof.
  unfold Lambda.buildPrefix, get. destruct (is_nullish custom); cbn [lift obind].
  - by intros [= <-].
  - repeat match goal with |- context [if ?b then _ else _] => destruct b end; done.
Qed.

Lemma has_own_false v k : Lambda.has_own v k = false -> own v k = JUndefined.
Proof.
  destruct v as [| | | | |s|a items|a fields]; cbn [Lambda.has_own own]; try done.
  - intros [H1 H2]%orb_false_iff. apply bool_decide_eq_false in H1.
    destruct (assoc k (indexed (chars s))) as [x|]; [by destruct H1|].
    cbn. by rewrite H2.
  - intros [H1 H2]%orb_false_iff. apply bool_decide_eq_false in H1.
    destruct (assoc k (indexed items)) as [x|]; [by destruct H1|].
    cbn. by rewrite H2.
  - intros H1. apply bool_decide_eq_false in H1.
    destruct (assoc k fields) as [x|]; [by destruct H1|]. done.
Qed.

Lemma request_inversion inherits path_join process_env endpoint tables cfg dir fn payload inv :
  Lambda.lambda_request inherits path_join process_env endpoint tables cfg dir fn payload
    = Return inv ->
  exists handler prefix fullPath entries,
    own (function_config cfg fn) "handler" = JString handler /\
    truthy (function_config cfg fn) = true /\
    Object_entries tables = Ok entries /\
    inv = Lambda.Invocation
      (spread (own (function_config cfg fn) "environment")
         (spread (provider_environment cfg)
            (set_prop "DYNAMODB_ENDPOINT" endpoint
               (set_all (Lambda.dynamodbTableAliases entries) (set_all process_env [])))))
      (if truthy (or_undefined (assoc "SLS_DEBUG" process_env))
       then Some ["--inspect-brk"%string] else None)
      (JString fullPath)
      (default EmptyString (Lambda.split_dot handler !! 0%nat))
      (match Lambda.split_dot handler !! 1%nat with
       | Some m => JString m | None => JUndefined end)
      payload /\
    Lambda.join_paths path_join
      [dir; prefix; JString (default EmptyString (Lambda.split_dot handler !! 0%nat))]
      = Return fullPath.
Proof.
  unfold Lambda.lambda_request, function_config, provider_environment, get.
  destruct (is_nullish cfg) eqn:Hcfg; [done|]. cbn [lift obind].
  unfold Lambda.lookup_member.
  destruct (is_nullish (with_default (own cfg "functions") empty_object)); [done|].
  destruct (Lambda.has_own _ fn); cbn [lift obind];
    [|destruct (inherits _ fn); cbn [lift obind];
      [by destruct (Lambda.buildPrefix _)|done]].
  destruct (truthy (own (with_default (own cfg "functions") empty_object) fn)) eqn:Hfn;
    [|done]. cbn [negb].
  destruct (Lambda.buildPrefix _) as [prefix|]; [|done]. cbn [obind].
  destruct (own (own _ fn) "handler") as [| | | | |handler| |] eqn:Hh; try done.
  destruct (Lambda.join_paths _ _) as [fullPath|] eqn:Hj; [|done]. cbn [obind].
  destruct (Object_entries tables) as [entries|[]]; [|done]. cbn [lift obind].
  destruct (is_nullish (with_default (own cfg "provider") empty_object)); [done|].
  cbn [lift obind]. intros [= <-].
  exists handler, prefix, fullPath, entries. done.
Qed.

(** X9: when [functions] has nothing under [fn], or something falsy,
    lambdaSource throws "Cannot find function config for function : fn" -
    before custom, provider or the tables are looked at, and whatever a
    child would answer.  A name that [functions] only inherits (toString,
    constructor, ...) passes that check and ends in a TypeError, as the
    method found has no handler to split. *)
Theorem missing_function_config
    inherits path_join process_env child endpoint tables cfg dir fn payload :
  is_nullish cfg = false ->
  is_nullish (functions_of cfg) = false ->
  (truthy (function_config cfg fn) = false ->
   (Lambda.has_own (functions_of cfg) fn = false -> inherits (functions_of cfg) fn = false) ->
   Lambda.lambdaSource inherits path_join process_env child endpoint tables cfg dir fn payload =
     Raise (Error ("Cannot find function config for function : " ++ fn))) /\
  (Lambda.has_own (functions_of cfg) fn = false ->
   inherits (functions_of cfg) fn = true ->
   Lambda.lambdaSource inherits path_join process_env child endpoint tables cfg dir fn payload =
     Raise Type_error).
Proof.
  intros Hcfg Hfs.
  unfold Lambda.lambdaSource, Lambda.lambda_request, Lambda.lookup_member,
    function_config, functions_of, get in *.
  rewrite Hcfg. cbn [lift obind]. rewrite Hfs. split.
  - intros Hfn Hin. destruct (Lambda.has_own _ fn); cbn [lift obind].
    + by rewrite Hfn.
    + by rewrite Hin.
  - intros -> ->. cbn [lift obind].
    destruct (Lambda.buildPrefix _) as [prefix|e] eqn:Hp; cbn [obind]; [done|].
    by rewrite (buildPrefix_raises _ _ Hp).
Qed.

(** X10: in the environment given to the child a variable has the value
    of the function's [environment] if it is set there, else that of the
    provider's [environment], else [dynamodbEndpoint] for
    DYNAMODB_ENDPOINT, else the table name for [DYNAMODB_TABLE_<alias>],
    else the value of the parent's [process.env]. *)
Theorem child_environment_precedence
    inherits path_join process_env endpoint tables cfg dir fn payload inv k :
  Lambda.lambda_request inherits path_join process_env endpoint tables cfg dir fn payload
    = Return inv ->
  exists entries,
    Object_entries tables = Ok entries /\
    assoc k (Lambda.env inv) =
      first_some
        [written k (spreadable (own (function_config cfg fn) "environment"));
         written k (spreadable (provider_environment cfg));
         (if String.eqb "DYNAMODB_ENDPOINT" k then Some endpoint else None);
         written k ((fun entry => (("DYNAMODB_TABLE_" ++ entry.1)%string, entry.2)) <$> entries);
         written k process_env].
Proof.
  intros (handler & prefix & fullPath & entries & _ & _ & He & -> & _)%request_inversion.
  exists entries. split; [done|]. cbn [Lambda.env first_some].
  rewrite !assoc_spread, assoc_set_prop. unfold Lambda.dynamodbTableAliases.
  rewrite !assoc_set_all, written_set_all. cbn [assoc].
  repeat match goal with |- context [match ?x with _ => _ end] => destruct x end; done.
Qed.

(** X11: the handler is cut at its dots and only the first two pieces
    are used: for [path.method] the message names [path] and [method],
    whatever follows a second dot is dropped, and a handler without a dot
    leaves the method undefined. *)
Theorem handler_is_cut_at_dots
    inherits path_join process_env endpoint tables cfg dir fn payload inv :
  Lambda.lambda_request inherits path_join process_env endpoint tables cfg dir fn payload
    = Return inv ->
  (forall h,
     own (function_config cfg fn) "handler" = JString h -> Lambda.dot_free h = true ->
     Lambda.handlerPath inv = h /\ Lambda.handlerMethod inv = JUndefined) /\
  (forall p m,
     own (function_config cfg fn) "handler" = JString (p ++ String Lambda.dot m) ->
     Lambda.dot_free p = true -> Lambda.dot_free m = true ->
     Lambda.handlerPath inv = p /\ Lambda.handlerMethod inv = JString m) /\
  (forall p m rest,
     own (function_config cfg fn) "handler"
       = JString (p ++ String Lambda.dot (m ++ String Lambda.dot rest)) ->
     Lambda.dot_free p = true -> Lambda.dot_free m = true ->
     Lambda.handlerPath inv = p /\ Lambda.handlerMethod inv = JString m).
Proof.
  intros (handler & prefix & fullPath & entries & Hh & _ & _ & -> & _)%request_inversion.
  cbn [Lambda.handlerPath Lambda.handlerMethod]. split; [|split].
  - intros h Hh' Hfree. assert (handler = h) as -> by congruence.
    by rewrite split_dot_free.
  - intros p m Hh' Hp Hm. assert (handler = (p ++ String Lambda.dot m)%string) as -> by congruence.
    by rewrite split_dot_prefix, split_dot_free.
  - intros p m rest Hh' Hp Hm.
    assert (handler = (p ++ String Lambda.dot (m ++ String Lambda.dot rest))%string) as ->
      by congruence.
    by rewrite !split_dot_prefix.
Qed.

Lemma strict_eq_string v s : strict_eq v (JString s) = true -> v = JString s.
Proof. destruct v; cbn; try done. by intros ->%String.eqb_eq. Qed.

(** X12: lambdaSource returns exactly when the request could be built
    and the child answered with type "success", and then it returns the
    [output] of the answer; every other answer is thrown. *)
Theorem lambda_returns_on_success_only
    inherits path_join process_env child endpoint tables cfg dir fn payload out :
  Lambda.lambdaSource inherits path_join process_env child endpoint tables cfg dir fn payload
    = Return out
  <->
  exists inv,
    Lambda.lambda_request inherits path_join process_env endpoint tables cfg dir fn payload
      = Return inv /\
    is_nullish (child inv) = false /\
    own (child inv) "type" = JString "success" /\
    out = own (child inv) "output".
Proof.
  unfold Lambda.lambdaSource.
  destruct (Lambda.lambda_request _ _ _ _ _ _ _ _ _) as [inv|e]; cbn [obind].
  - unfold Lambda.lambda_response, get. split.
    + destruct (is_nullish (child inv)) eqn:Hn; [done|]. cbn [lift obind].
      destruct (strict_eq (own (child inv) "type") (JString "error")); [done|].
      destruct (strict_eq (own (child inv) "type") (JString "success")) eqn:Hs; [|done].
      intros [= <-]. exists inv. by apply strict_eq_string in Hs.
    + intros (inv' & [= <-] & Hn & Ht & ->). rewrite Hn. cbn [lift obind]. by rewrite Ht.
  - split; [done|]. by intros (inv & ? & _).
Qed.

Lemma missing_function_config_witness :
  Lambda.lambdaSource inherits_from_Object join_with_slash sample_process_env echo_child
    (JString "http://localhost:8000") sample_tables sample_config (JString "/srv")
    "goodbye" JNull =
    Raise (Error "Cannot find function config for function : goodbye") /\
  Lambda.lambdaSource inherits_from_Object join_with_slash sample_process_env echo_child
    (JString "http://localhost:8000") sample_tables sample_config (JString "/srv")
    "toString" JNull = Raise Type_error.
Proof.
  split.
  - apply (missing_function_config inherits_from_Object join_with_slash sample_process_env
             echo_child (JString "http://localhost:8000") sample_tables sample_config
             (JString "/srv") "goodbye" JNull); reflexivity.
  - apply (missing_function_config inherits_from_Object join_with_slash sample_process_env
             echo_child (JString "http://localhost:8000") sample_tables sample_config
             (JString "/srv") "toString" JNull); reflexivity.
Defined.

Lemma child_environment_precedence_witness :
  exists inv,
    Lambda.lambda_request inherits_from_Object join_with_slash sample_process_env
      (JString "http://localhost:8000") sample_tables sample_config (JString "/srv")
      "hello" JNull = Return inv /\
    assoc "STAGE" (Lambda.env inv) = Some (JString "fn") /\
    assoc "REGION" (Lambda.env inv) = Some (JString "eu") /\
    assoc "DYNAMODB_TABLE_users" (Lambda.env inv) = Some (JString "users-dev") /\
    assoc "PATH" (Lambda.env inv) = Some (JString "/bin").
Proof.
  eexists. split; [reflexivity|].
  split; [|split; [|split]].
  - destruct (child_environment_precedence inherits_from_Object join_with_slash sample_process_env
                (JString "http://localhost:8000") sample_tables sample_config (JString "/srv")
                "hello" JNull _ "STAGE" eq_refl) as (entries & [= <-] & H).
    exact H.
  - destruct (child_environment_precedence inherits_from_Object join_with_slash sample_process_env
                (JString "http://localhost:8000") sample_tables sample_config (JString "/srv")
                "hello" JNull _ "REGION" eq_refl) as (entries & [= <-] & H).
    exact H.
  - destruct (child_environment_precedence inherits_from_Object join_with_slash sample_process_env
                (JString "http://localhost:8000") sample_tables sample_config (JString "/srv")
                "hello" JNull _ "DYNAMODB_TABLE_users" eq_refl) as (entries & [= <-] & H).
    exact H.
  - destruct (child_environment_precedence inherits_from_Object join_with_slash sample_process_env
                (JString "http://localhost:8000") sample_tables sample_config (JString "/srv")
                "hello" JNull _ "PATH" eq_refl) as (entries & [= <-] & H).
    exact H.
Defined.

Lemma handler_is_cut_at_dots_witness :
  exists inv,
    Lambda.lambda_request inherits_from_Object join_with_slash sample_process_env
      (JString "http://localhost:8000") sample_tables sample_config (JString "/srv")
      "hello" JNull = Return inv /\
    Lambda.handlerPath inv = "src/handlers" /\
    Lambda.handlerMethod inv = JString "hello".
Proof.
  eexists. split; [reflexivity|].
  destruct (handler_is_cut_at_dots inherits_from_Object join_with_slash sample_process_env
              (JString "http://localhost:8000") sample_tables sample_config (JString "/srv")
              "hello" JNull _ eq_refl) as (_ & H & _).
  apply (H "src/handlers" "hello"); reflexivity.
Defined.

(* ===================================================================== *)
(** ** httpSource *)
(* ===================================================================== *)

Lemma append_empty_r (s : string) : (s ++ "")%string = s.
Proof.
  induction s as [|c s IH]; [done|].
  change (String c (s ++ "")%string = String c s). by rewrite IH.
Qed.

(** X13: the url asked for is [endpoint + resourcePath] alone when
    [params.query] is undefined or has no keys.  When it has keys or is
    another primitive, ["?"] and the encoded query are appended; if
    URLSearchParams cannot read the query, what it throws comes out of
    httpSource and nothing is fetched.  A [query] that is null is a
    TypeError, also thrown before anything is fetched. *)
Theorem http_request_url encode endpoint resourcePath method params :
  (no_query (query_of params) ->
   Http.http_request encode endpoint resourcePath method params =
     Return ((endpoint ++ resourcePath)%string,
             set_prop "method" method (spread params []))) /\
  (some_query (query_of params) ->
   (forall encoded,
      encode (query_of params) = Return encoded ->
      Http.http_request encode endpoint resourcePath method params =
        Return ((endpoint ++ resourcePath ++ "?" ++ encoded)%string,
                set_prop "method" method (spread params []))) /\
   (forall e fetch,
      encode (query_of params) = Raise e ->
      Http.httpSource encode fetch endpoint resourcePath method params = Raise e)) /\
  (query_of params = JNull ->
   forall fetch,
     Http.httpSource encode fetch endpoint resourcePath method params = Raise Type_error).
Proof.
  unfold Http.httpSource, Http.http_request. fold (query_of params).
  split; [|split].
  - intros [Hq|[Ht He]].
    + rewrite Hq. cbn. by rewrite append_empty_r.
    + destruct (query_of params); cbn in Ht, He; try congruence;
        injection He as He; unfold Http.queryPath, Http.Object_keys, Object_entries;
        rewrite He; cbn; by rewrite append_empty_r.
  - intros Hq.
    assert (Hp : Http.queryPath encode (query_of params) =
                 Http.with_question_mark encode (query_of params)).
    { destruct Hq as [[Hu Ht]|[Ht (entry & entries & He)]].
      - unfold Http.queryPath. destruct (query_of params); cbn in *; done.
      - destruct (query_of params); cbn in Ht, He; try congruence;
          injection He as He; unfold Http.queryPath, Http.Object_keys, Object_entries;
          rewrite He; cbn; done. }
    rewrite Hp. unfold Http.with_question_mark. split.
    + by intros encoded ->.
    + by intros e fetch ->.
  - intros -> fetch. reflexivity.
Qed.

Lemma http_request_url_witness :
  Http.http_request sample_encode "http://api" "/items" (JString "POST") sample_params =
    Return ("http://api/items?page=2"%string,
            set_prop "method" (JString "POST") (spread sample_params [])) /\
  Http.http_request sample_encode "http://api" "/items" (JString "POST") JUndefined =
    Return ("http://api/items"%string, [("method", JString "POST")]) /\
  Http.httpSource sample_encode sample_fetch "http://api" "/items" (JString "POST")
    (JObject 1 [("query", JArray 2 [JNumber 1])]) = Raise Type_error /\
  Http.httpSource sample_encode sample_fetch "http://api" "/items" (JString "POST")
    (JObject 1 [("query", JNull)]) = Raise Type_error.
Proof.
  destruct (http_request_url sample_encode "http://api" "/items" (JString "POST")
              sample_params) as (_ & H2 & _).
  destruct (http_request_url sample_encode "http://api" "/items" (JString "POST")
              JUndefined) as (H1 & _ & _).
  destruct (http_request_url sample_encode "http://api" "/items" (JString "POST")
              (JObject 1 [("query", JArray 2 [JNumber 1])])) as (_ & H3 & _).
  destruct (http_request_url sample_encode "http://api" "/items" (JString "POST")
              (JObject 1 [("query", JNull)])) as (_ & _ & H4).
  split; [|split; [|split]].
  - apply H2; [|reflexivity]. right. split; [reflexivity|]. eexists _, _. reflexivity.
  - apply H1. left. reflexivity.
  - apply H3; [|reflexivity]. right. split; [reflexivity|]. eexists _, _. reflexivity.
  - apply H4. reflexivity.
Defined.

(** X14: the options given to fetch carry the [method] argument, also
    when [params] has a method of its own; every other property of
    [params] is passed on as it is. *)
Theorem method_argument_wins encode endpoint resourcePath method params request k :
  Http.http_request encode endpoint resourcePath method params = Return request ->
  assoc "method" request.2 = Some method /\
  (k <> "method" -> assoc k request.2 = written k (spreadable params)).
Proof.
  unfold Http.http_request.
  destruct (Http.queryPath _ _) as [path|]; [|done]. cbn [obind]. intros [= <-].
  cbn [snd]. rewrite !assoc_set_prop, assoc_spread. split; [done|].
  intros Hk. destruct (String.eqb_spec "method" k) as [<-|_]; [done|].
  rewrite assoc_spread. by destruct (written k (spreadable params)).
Qed.

Lemma method_argument_wins_witness :
  exists request,
    Http.http_request sample_encode "http://api" "/items" (JString "POST") sample_params
      = Return request /\
    assoc "method" request.2 = Some (JString "POST") /\
    assoc "headers" request.2 = Some (JObject 3 []).
Proof.
  eexists. split; [reflexivity|].
  destruct (method_argument_wins sample_encode "http://api" "/items" (JString "POST")
              sample_params _ "headers" eq_refl) as [H1 H2].
  split; [exact H1|]. apply H2. discriminate.
Defined.

(* ===================================================================== *)
(** ** The AWSPhone scalar *)
(* ===================================================================== *)

(** X15: serialize and parseValue of AWSPhone return the value they are
    given, unchanged, exactly when isValidNumber answers true, so that a
    serialized value parses back to itself.  When it answers false they
    throw "Not a valid phone number", and when isValidNumber itself throws
    (as it does on a value that is not a string) its exception comes out
    as it is.  parseLiteral does the same on string literals and refuses
    every other literal, valid number or not, without asking
    isValidNumber. *)
Theorem AWSPhone_returns_its_argument isValidNumber v :
  (forall w, Scalars.AWSPhone_serialize isValidNumber v = Return w <->
             isValidNumber v = Return true /\ w = v) /\
  (forall w, Scalars.AWSPhone_serialize isValidNumber v = Return w ->
             Scalars.AWSPhone_parseValue isValidNumber w = Return v /\
             Scalars.AWSPhone_parseLiteral isValidNumber (Scalars.Ast Scalars.STRING w)
               = Return v) /\
  (isValidNumber v = Return false ->
   Scalars.AWSPhone_serialize isValidNumber v =
     Raise (GraphQLError "Query error: Not a valid phone number") /\
   Scalars.AWSPhone_parseValue isValidNumber v =
     Raise (GraphQLError "Query error: Not a valid phone number") /\
   Scalars.AWSPhone_parseLiteral isValidNumber (Scalars.Ast Scalars.STRING v) =
     Raise (GraphQLError "Query error: Not a valid phone number")) /\
  (forall e,
     isValidNumber v = Raise e ->
     Scalars.AWSPhone_serialize isValidNumber v = Raise e /\
     Scalars.AWSPhone_parseValue isValidNumber v = Raise e /\
     Scalars.AWSPhone_parseLiteral isValidNumber (Scalars.Ast Scalars.STRING v) = Raise e) /\
  (forall name,
     Scalars.AWSPhone_parseLiteral isValidNumber (Scalars.Ast (Scalars.OTHER name) v) =
       Raise (GraphQLError ("Query error: Can only parse strings got a: " ++ name))).
Proof.
  unfold Scalars.AWSPhone_serialize, Scalars.AWSPhone_parseValue,
    Scalars.AWSPhone_parseLiteral, Scalars.phoneValidator. cbn.
  split; [|split; [|split; [|split]]].
  - intros w. destruct (isValidNumber v) as [[|]|e]; cbn; split; try done.
    + by intros [= <-].
    + by intros [_ ->].
    + by intros [? _].
    + by intros [? _].
  - intros w. destruct (isValidNumber v) as [[|]|e] eqn:Hv; cbn; try done.
    intros [= <-]. by rewrite Hv.
  - by intros ->.
  - by intros e ->.
  - done.
Qed.

(* ===================================================================== *)
(** ** createGQLHandler *)
(* ===================================================================== *)

Section handler_facts.
Context {S R : Type}.
Variable jwtDecode : value -> outcome value.
Variable parse : value -> outcome value.
Variable validate : value -> list value.
Variable execute : value -> props -> value -> value -> outcome Handler.executed.
Variable register : props -> value -> value -> S -> R * S.

(** After a request has been received well, the handler goes on with
    validation. *)
Lemma attempt_received req jwt documentAST s :
  well_received jwtDecode parse req jwt documentAST ->
  Handler.attempt jwtDecode parse validate execute register req s =
    if negb (Nat.eqb (length (validate documentAST)) 0)
    then Return (Handler.SentValidationErrors (validate documentAST), s)
    else
      let! type := Handler.queryType documentAST in
      if strict_eq type (JString "query") || strict_eq type (JString "mutation") then
        let! result :=
          Handler.executeGQL execute documentAST [("jwt", jwt); ("request", req)]
            (own (own req "body") "variables") (own (own req "body") "operationName") in
        Return (Handler.SentResult result, s)
      else if strict_eq type (JString "subscription") then
        let (response, s') :=
          register [("jwt", jwt); ("request", req)] documentAST
            (own (own req "body") "variables") s in
        Return (Handler.SentRegistration response, s')
      else Raise (Error ("unknown operation type: " ++ Handler.to_string type)).
Proof.
  intros (Hreq & Hh & Hjwt & Hb & Hp). unfold Handler.attempt, get.
  rewrite Hreq. cbn [lift obind]. rewrite Hh. cbn [lift obind].
  destruct (truthy (own (own req "headers") "authorization")).
  - rewrite Hjwt. cbn [obind]. rewrite Hb. cbn [lift obind]. rewrite Hp. reflexivity.
  - subst jwt. cbn [obind]. rewrite Hb. cbn [lift obind]. rewrite Hp. reflexivity.
Qed.

(** X16: a request whose document fails validation is answered with the
    validation errors alone: nothing is executed and the subscription
    server is left as it was, whatever the operation kind. *)
Theorem validation_errors_stop_the_request req jwt documentAST s :
  well_received jwtDecode parse req jwt documentAST ->
  validate documentAST <> [] ->
  Handler.createGQLHandler jwtDecode parse validate execute register req s =
    (Handler.SentValidationErrors (validate documentAST), s).
Proof.
  intros Hrec Hval. unfold Handler.createGQLHandler.
  rewrite (attempt_received _ _ _ _ Hrec).
  by destruct (validate documentAST).
Qed.

(** X17: the kind of request is read off the first definition of the
    document alone.  A subscription there goes to register of the
    subscription server, with the context made of the token and the
    request; a query or mutation there is executed and leaves the
    subscription server alone; a fragment there makes the handler answer
    "unknown operation type: undefined", whatever operations follow. *)
Theorem first_definition_decides req jwt documentAST addr first rest s :
  well_received jwtDecode parse req jwt documentAST ->
  validate documentAST = [] ->
  own documentAST "definitions" = JArray addr (first :: rest) ->
  is_nullish first = false ->
  (own first "operation" = JString "subscription" ->
   Handler.createGQLHandler jwtDecode parse validate execute register req s =
     (Handler.SentRegistration
        (register [("jwt", jwt); ("request", req)] documentAST
           (own (own req "body") "variables") s).1,
      (register [("jwt", jwt); ("request", req)] documentAST
         (own (own req "body") "variables") s).2)) /\
  (own first "operation" = JString "query" \/ own first "operation" = JString "mutation" ->
   Handler.createGQLHandler jwtDecode parse validate execute register req s =
     (match
        Handler.executeGQL execute documentAST [("jwt", jwt); ("request", req)]
          (own (own req "body") "variables") (own (own req "body") "operationName")
      with
      | Return result => Handler.SentResult result
      | Raise e => Handler.SentErrorMessage e
      end, s)) /\
  (own first "operation" = JUndefined ->
   Handler.createGQLHandler jwtDecode parse validate execute register req s =
     (Handler.SentErrorMessage (Error "unknown operation type: undefined"), s)).
Proof.
  intros Hrec Hval Hdefs Hfirst.
  assert (Hdoc : is_nullish documentAST = false).
  { destruct documentAST; cbn in Hdefs; done. }
  assert (Htype : Handler.queryType documentAST = Return (own first "operation")).
  { unfold Handler.queryType, get. rewrite Hdoc. cbn [lift obind].
    rewrite Hdefs, Hfirst. reflexivity. }
  unfold Handler.createGQLHandler.
  rewrite (attempt_received _ _ _ _ Hrec), Hval, Htype. cbn [length Nat.eqb negb obind].
  split; [|split].
  - intros ->. cbn. by destruct (register _ _ _ _).
  - intros [-> | ->]; cbn; by destruct (Handler.executeGQL _ _ _ _ _).
  - intros ->. reflexivity.
Qed.

End handler_facts.

Lemma validation_errors_stop_the_request_witness :
  Handler.createGQLHandler no_decode parse_subscription some_errors execute_nothing
    counting_register sample_req 0%nat =
  (Handler.SentValidationErrors [JString "Cannot query field"], 0%nat).
Proof.
  apply (validation_errors_stop_the_request no_decode parse_subscription some_errors
           execute_nothing counting_register sample_req empty_object
           (sample_document [operation_definition "subscription"]) 0%nat).
  - unfold well_received; cbn; tauto.
  - discriminate.
Defined.

Lemma first_definition_decides_witness :
  Handler.createGQLHandler no_decode parse_fragment_first no_errors execute_nothing
    counting_register sample_req 0%nat =
    (Handler.SentErrorMessage (Error "unknown operation type: undefined"), 0%nat) /\
  Handler.createGQLHandler no_decode parse_subscription no_errors execute_nothing
    counting_register sample_req 0%nat =
    (Handler.SentRegistration "handshake"%string, 1%nat).
Proof.
  assert (H1 : well_received no_decode parse_fragment_first sample_req empty_object
                 (sample_document [fragment_definition; operation_definition "query"]))
    by (unfold well_received; cbn; tauto).
  assert (H2 : well_received no_decode parse_subscription sample_req empty_object
                 (sample_document [operation_definition "subscription"]))
    by (unfold well_received; cbn; tauto).
  split.
  - destruct (first_definition_decides no_decode parse_fragment_first no_errors
                execute_nothing counting_register sample_req empty_object
                (sample_document [fragment_definition; operation_definition "query"])
                21 fragment_definition [operation_definition "query"] 0%nat
                H1 eq_refl eq_refl eq_refl) as (_ & _ & H).
    exact (H eq_refl).
  - destruct (first_definition_decides no_decode parse_subscription no_errors
                execute_nothing counting_register sample_req empty_object
                (sample_document [operation_definition "subscription"])
                21 (operation_definition "subscription") [] 0%nat
                H2 eq_refl eq_refl eq_refl) as (H & _ & _).
    exact (H eq_refl).
Defined.

Lemma lambda_returns_on_success_only_witness :
  Lambda.lambdaSource inherits_from_Object join_with_slash sample_process_env echo_child
    (JString "http://localhost:8000") sample_tables sample_config (JString "/srv")
    "hello" (JString "ping") = Return (JString "ping").
Proof.
  apply (proj2 (lambda_returns_on_success_only inherits_from_Object join_with_slash sample_process_env echo_child
                  (JString "http://localhost:8000") sample_tables sample_config
                  (JString "/srv") "hello" (JString "ping") (JString "ping"))).
  eexists. split; [reflexivity|]. split; [reflexivity|]. split; reflexivity.
Defined.

Lemma AWSPhone_returns_its_argument_witness :
  Scalars.AWSPhone_parseValue starts_with_plus (JString "+3612345678")
    = Return (JString "+3612345678") /\
  Scalars.AWSPhone_serialize starts_with_plus (JString "12345")
    = Raise (GraphQLError "Query error: Not a valid phone number") /\
  Scalars.AWSPhone_serialize starts_with_plus (JNumber 12133734253) = Raise Type_error.
Proof.
  destruct (AWSPhone_returns_its_argument starts_with_plus (JString "+3612345678"))
    as (H1 & H2 & _).
  destruct (AWSPhone_returns_its_argument starts_with_plus (JString "12345"))
    as (_ & _ & H3 & _).
  destruct (AWSPhone_returns_its_argument starts_with_plus (JNumber 12133734253))
    as (_ & _ & _ & H4 & _).
  split; [|split].
  - apply (H2 (JString "+3612345678")). apply H1. split; reflexivity.
  - apply H3. reflexivity.
  - apply (H4 Type_error). reflexivity.
Defined.

(* ===================================================================== *)
(** ** ensureDynamodbTables *)
(* ===================================================================== *)

Lemma strict_eq_string_iff v s : strict_eq v (JString s) = true <-> v = JString s.
Proof.
  split; [apply strict_eq_string|]. intros ->. cbn. apply String.eqb_refl.
Qed.

Lemma filter_throwing_plain field name l :
  Forall (fun x => is_nullish x = false) l ->
  Dynamo.filter_throwing (Dynamo.has_type field name) l =
    Return (List.filter (fun x => strict_eq (own x field) (JString name)) l).
Proof.
  induction 1 as [|x l Hx Hl IH]; [done|].
  cbn [Dynamo.filter_throwing List.filter]. unfold Dynamo.has_type at 1, get.
  rewrite Hx. cbn [lift obind]. rewrite IH. cbn [obind].
  by destruct (strict_eq _ _).
Qed.

Lemma ensure_table_Return createTable resource :
  Dynamo.ensure_table createTable resource = Return tt <->
  created_or_exists createTable resource.
Proof.
  unfold Dynamo.ensure_table, created_or_exists, get.
  destruct (createTable (own resource "Properties")) as [err|]; [|done].
  destruct (is_nullish err); cbn [lift obind]; [split; [done|by intros [? _]]|].
  destruct (strict_eq (own err "code") (JString "ResourceInUseException")) eqn:Hc; cbn.
  - apply strict_eq_string in Hc. done.
  - split; [done|]. intros [_ Hc']. rewrite Hc' in Hc. done.
Qed.

Lemma all_settled_Return promises :
  (exists u, Dynamo.all_settled promises = Return u) <->
  Forall (fun p => exists u, p = Return u) promises.
Proof.
  induction promises as [|[u|e] promises IH]; cbn.
  - split; [by constructor|by eexists].
  - rewrite IH. split.
    + intros H. constructor; [by eexists|done].
    + by intros [_ H]%Forall_cons.
  - split; [by intros [u Hu]|]. intros [[u Hu] _]%Forall_cons. done.
Qed.

Lemma foldl_add_table_Raise e sources :
  foldl Dynamo.add_table (Raise e) sources = Raise e.
Proof. induction sources as [|s sources IH]; [done|]. cbn. exact IH. Qed.

Lemma foldl_add_table sources acc :
  Forall (fun s => exists name, own (own s "config") "tableName" = JString name) sources ->
  foldl Dynamo.add_table (Return acc) sources =
    Return (set_all ((fun s => (table_name s, JString (table_name s))) <$> sources) acc).
Proof.
  intros Hall. revert acc. induction Hall as [|s sources [name Hs] _ IH]; intros acc; [done|].
  cbn [foldl fmap list_fmap]. unfold Dynamo.add_table at 2. cbn [obind]. unfold get.
  assert (Hcfg : is_nullish (own s "config") = false)
    by (destruct (own s "config"); cbn in Hs; done).
  assert (Hsrc : is_nullish s = false).
  { destruct s; cbn in *; done. }
  rewrite Hsrc. cbn [lift obind]. rewrite Hcfg. cbn [lift obind].
  assert (Hname : table_name s = name) by (unfold table_name; by rewrite Hs).
  rewrite Hs, Hname, IH. reflexivity.
Qed.

Lemma written_fmap {A} (g : A -> string) (h : A -> value) k l :
  written k ((fun x => (g x, h x)) <$> l) =
    h <$> last (List.filter (fun x => String.eqb (g x) k) l).
Proof.
  unfold written. induction l as [|x l IH]; [done|].
  rewrite fmap_cons, reverse_cons, assoc_app, IH. cbn [List.filter].
  destruct (String.eqb_spec (g x) k) as [Hg|Hg]; cbn [assoc fst snd].
  - rewrite Hg, String.eqb_refl, last_cons. by destruct (last _).
  - apply String.eqb_neq in Hg. rewrite Hg. by destruct (last _).
Qed.

Lemma sources_kept sources :
  Forall plain_source sources ->
  Forall (fun x => is_nullish x = false) sources /\
  Forall (fun s => exists name, own (own s "config") "tableName" = JString name)
    (List.filter (fun x => strict_eq (own x "type") (JString "AMAZON_DYNAMODB")) sources).
Proof.
  induction 1 as [|s sources [Hn Hs] _ [IH1 IH2]]; [by split|].
  split; [by constructor|]. cbn [List.filter].
  destruct (strict_eq _ _) eqn:Ht; [|done].
  constructor; [|done]. apply Hs. by apply strict_eq_string.
Qed.

(** What ensureDynamodbTables comes to on a configuration that is
    well formed. *)
Lemma ensure_configured createTable serverlessConfig appSyncConfig resources sources :
  configured serverlessConfig appSyncConfig resources sources ->
  Dynamo.ensureDynamodbTables createTable serverlessConfig appSyncConfig =
    let! _ :=
      Dynamo.all_settled
        (Dynamo.ensure_table createTable <$>
           List.filter (fun x => strict_eq (own x "Type") (JString "AWS::DynamoDB::Table"))
             resources) in
    Return
      (set_all
         ((fun s => (table_name s, JString (table_name s))) <$>
            List.filter (fun x => strict_eq (own x "type") (JString "AMAZON_DYNAMODB")) sources)
         []).
Proof.
  intros (Ha & [addr Hd] & Hs & Hc & Hr & Hv & Hres).
  destruct (sources_kept _ Hs) as [Hs1 Hs2].
  unfold Dynamo.ensureDynamodbTables, get.
  rewrite Ha. cbn [lift obind]. rewrite Hc. cbn [lift obind]. rewrite Hr. cbn [lift obind].
  rewrite Hv. cbn [lift obind]. rewrite (filter_throwing_plain _ _ _ Hres). cbn [obind].
  destruct (Dynamo.all_settled _); cbn [obind]; [|done].
  rewrite Hd, (filter_throwing_plain _ _ _ Hs1). cbn [obind].
  by apply foldl_add_table.
Qed.

(** X18: ensureDynamodbTables goes through exactly when every resource
    of type AWS::DynamoDB::Table was created or refused with code
    ResourceInUseException: a table that exists already is not an error,
    any other failure is, and resources of other types are not touched. *)
Theorem existing_tables_are_tolerated
    createTable serverlessConfig appSyncConfig resources sources :
  configured serverlessConfig appSyncConfig resources sources ->
  (exists tables,
     Dynamo.ensureDynamodbTables createTable serverlessConfig appSyncConfig = Return tables)
  <->
  Forall (fun resource => is_table resource -> created_or_exists createTable resource)
    resources.
Proof.
  intros Hcfg. rewrite (ensure_configured _ _ _ _ _ Hcfg).
  transitivity (exists u, Dynamo.all_settled
    (Dynamo.ensure_table createTable <$>
       List.filter (fun x => strict_eq (own x "Type") (JString "AWS::DynamoDB::Table"))
         resources) = Return u).
  { destruct (Dynamo.all_settled _) as [u|e]; cbn [obind].
    - split; intros _; by eexists.
    - split; by intros [? ?]. }
  rewrite all_settled_Return, Forall_fmap. clear Hcfg.
  induction resources as [|r resources IH]; cbn [List.filter].
  - split; intros _; constructor.
  - unfold is_table at 1. destruct (strict_eq _ _) eqn:Ht.
    + apply strict_eq_string in Ht. rewrite !Forall_cons, IH. cbn.
      split; intros [H1 H2]; (split; [|done]).
      * intros _. destruct H1 as [[] H1]. by apply ensure_table_Return.
      * exists tt. by apply ensure_table_Return, H1.
    + rewrite Forall_cons, IH. split; [|by intros [_ ?]].
      intros H. split; [|done]. intros Ht'.
      apply strict_eq_string_iff in Ht'. unfold is_table in *. congruence.
Qed.

(** X19: the map that ensureDynamodbTables returns has an entry for a
    name exactly when a data source of type AMAZON_DYNAMODB is on the
    table of that name, and every entry maps the name to itself; sources
    of other types are left out, whatever they hold. *)
Theorem table_map_of_dynamodb_sources
    createTable serverlessConfig appSyncConfig resources sources tables name :
  configured serverlessConfig appSyncConfig resources sources ->
  Dynamo.ensureDynamodbTables createTable serverlessConfig appSyncConfig = Return tables ->
  (assoc name tables = Some (JString name) <-> Exists (dynamodb_source name) sources) /\
  (forall v, assoc name tables = Some v -> v = JString name).
Proof.
  intros Hcfg. rewrite (ensure_configured _ _ _ _ _ Hcfg).
  destruct (Dynamo.all_settled _); cbn [obind]; [|done]. intros [= <-].
  destruct Hcfg as (_ & _ & Hs & _).
  rewrite assoc_set_all. cbn [assoc].
  rewrite (written_fmap table_name (fun s => JString (table_name s))).
  set (matching := List.filter (fun x => String.eqb (table_name x) name)
         (List.filter (fun x => strict_eq (own x "type") (JString "AMAZON_DYNAMODB")) sources)).
  assert (Hm : forall s, In s matching <->
            In s sources /\ own s "type" = JString "AMAZON_DYNAMODB" /\ table_name s = name).
  { intros s. unfold matching. rewrite !filter_In, strict_eq_string_iff, String.eqb_eq. tauto. }
  assert (Hlast : forall s, last matching = Some s -> table_name s = name).
  { intros s Hl. apply Hm. apply list_elem_of_In. by eapply last_Some_elem_of. }
  split.
  - split.
    + destruct (last matching) as [s|] eqn:Hl; [|done]. intros _.
      assert (Hin : In s matching) by (apply list_elem_of_In; by eapply last_Some_elem_of).
      apply Hm in Hin as (Hin & Ht & Hn). apply Exists_exists. exists s.
      split; [by apply list_elem_of_In|]. split; [done|].
      apply list_elem_of_In in Hin. eapply Forall_forall in Hs as [_ Hname]; [|exact Hin].
      destruct (Hname Ht) as [n Hn']. unfold table_name in Hn. rewrite Hn' in Hn. congruence.
    + intros (s & Hin & Ht & Hn)%Exists_exists.
      assert (Hinm : In s matching).
      { apply Hm. split; [by apply list_elem_of_In|]. split; [done|].
        unfold table_name. by rewrite Hn. }
      destruct (last matching) as [s'|] eqn:Hl.
      * cbn. by rewrite (Hlast s' eq_refl).
      * apply last_None in Hl. rewrite Hl in Hinm. done.
  - intros v. destruct (last matching) as [s|] eqn:Hl; [|done]. cbn.
    intros [= <-]. by rewrite (Hlast s eq_refl).
Qed.

Lemma sample_configured :
  configured sample_serverless sample_appsync sample_resources sample_sources.
Proof.
  split; [reflexivity|]. split; [by exists 47%nat|]. split.
  { apply Forall_cons. split.
    - split; [reflexivity|]. intros _. by exists "users".
    - apply Forall_cons. split; [|by apply Forall_nil].
      split; [reflexivity|]. intros H. discriminate H. }
  split; [reflexivity|]. split; [reflexivity|]. split; [reflexivity|].
  apply Forall_cons. split; [reflexivity|].
  apply Forall_cons. split; [reflexivity|by apply Forall_nil].
Qed.

Lemma existing_tables_are_tolerated_witness :
  exists tables,
    Dynamo.ensureDynamodbTables table_exists sample_serverless sample_appsync = Return tables.
Proof.
  apply (existing_tables_are_tolerated table_exists sample_serverless sample_appsync
           sample_resources sample_sources sample_configured).
  apply Forall_cons. split.
  - intros _. split; reflexivity.
  - apply Forall_cons. split; [|by apply Forall_nil]. intros H. discriminate H.
Defined.

Lemma table_map_of_dynamodb_sources_witness :
  exists tables,
    Dynamo.ensureDynamodbTables table_exists sample_serverless sample_appsync = Return tables /\
    assoc "users" tables = Some (JString "users").
Proof.
  eexists. split; [reflexivity|].
  apply (table_map_of_dynamodb_sources table_exists sample_serverless sample_appsync
           sample_resources sample_sources _ "users" sample_configured eq_refl).
  apply Exists_cons_hd. split; reflexivity.
Defined.
